(** * AbstractServer: listener bootstrap, route registration and Redis heartbeat

    A shallow embedding of [AbstractServer] (packages/cli, the second document
    of [GithubApi.credentials.ts]): the [retryStrategy] closure handed to
    ioredis, [setupRedisChecks], [setupHealthCheck], [init] and [start],
    together with a small model of the Express router the class registers its
    handlers on. *)

From Stdlib Require Import ZArith List String Ascii Bool Lia.
Import ListNotations.
Open Scope string_scope.
Open Scope list_scope.
Open Scope Z_scope.

(* ================================================================== *)
(** ** The retry strategy of the Redis heartbeat connection *)
(* ================================================================== *)

Module RetryPolicy.

(** The two counters captured by the closure ([let lastTimer = 0;
    let cumulativeTimeout = 0;]).  Times are [Date.now()] milliseconds. *)
Record window : Type := Window {
  lastTimer : Z;
  cumulativeTimeout : Z
}.

Definition initial : window := Window 0 0.

(** What one call of the closure does to its caller: it either returns the
    delay before the next reconnect attempt, or it ends the process. *)
Inductive verdict : Type :=
| Return (delay : Z)
| Exit (code : Z).

(** [retryStrategy], with [Date.now()] passed in as [now].  The second
    component is the value of the captured counters when the call ends
    (on [process.exit(1)]: when the process ends). *)
Definition retryStrategy (redisConnectionTimeoutLimit now : Z) (w : window)
  : verdict * window :=
  if now - lastTimer w >? 30000 then
    (* no timeout at all so far, or the last one was temporary *)
    (Return 500, {| lastTimer := now; cumulativeTimeout := 0 |})
  else
    let cumulativeTimeout' := cumulativeTimeout w + (now - lastTimer w) in
    let w' := {| lastTimer := now; cumulativeTimeout := cumulativeTimeout' |} in
    if cumulativeTimeout' >? redisConnectionTimeoutLimit
    then (Exit 1, w')
    else (Return 500, w').

(** The transport calls the hook once per reconnect attempt, at the times
    [ts]; after [process.exit] there is no further attempt. *)
Fixpoint reconnect (limit : Z) (ts : list Z) (w : window)
  : list verdict * window :=
  match ts with
  | [] => ([], w)
  | now :: ts' =>
      match retryStrategy limit now w with
      | (Exit c, w') => ([Exit c], w')
      | (Return d, w') =>
          let (vs, w'') := reconnect limit ts' w' in (Return d :: vs, w'')
      end
  end.

(** Failure times in chronological order, none before [last]. *)
Fixpoint chronological (last : Z) (ts : list Z) : bool :=
  match ts with
  | [] => true
  | t :: ts' => (last <=? t) && chronological t ts'
  end.

(** Total elapsed time of a failure sequence: the sum of the gaps between
    successive failures, the first one counted from [last]. *)
Fixpoint elapsed (last : Z) (ts : list Z) : Z :=
  match ts with
  | [] => 0
  | t :: ts' => (t - last) + elapsed t ts'
  end.

(** The reading of the reset rule in which the elapsed time of the failure
    that opens a new episode is added after the reset. *)
Definition reset_adds_elapsed : Prop :=
  forall limit now w,
    now - lastTimer w > 30000 ->
    cumulativeTimeout (snd (retryStrategy limit now w)) = now - lastTimer w.

(** The counters once a failure at [now] has been counted, by the rule of
    the policy: a failure more than 30 seconds after the last one opens a new
    episode with no downtime; any other adds the time elapsed since the last
    one to the downtime. *)
Definition counted (w : window) (now : Z) : window :=
  if 30000 <? now - lastTimer w
  then Window now 0
  else Window now (cumulativeTimeout w + (now - lastTimer w)).

(** The reading in which a call is fatal exactly when the downtime counted
    up to it exceeds the threshold, whatever the threshold is. *)
Definition fatal_iff_downtime_exceeds : Prop :=
  forall limit now w,
    fst (retryStrategy limit now w) = Exit 1
    <-> cumulativeTimeout (counted w now) > limit.

End RetryPolicy.

(* ================================================================== *)
(** ** The Redis client built by [setupRedisChecks] *)
(* ================================================================== *)

Module Redis.

Record node : Type := Node { node_host : string; node_port : Z }.

(** The fields of ioredis' [RedisOptions] the class sets.  A field that is
    left out of the object literal is [None]. *)
Record RedisOptions : Type := {
  host : option string;
  port : option Z;
  username : option string;
  password : option string;
  db : option Z;
  enableReadyCheck : option bool;
  maxRetriesPerRequest : option (option Z);
  retryStrategy :
    option (Z -> RetryPolicy.window -> RetryPolicy.verdict * RetryPolicy.window)
}.

Inductive client : Type :=
| Single (options : RedisOptions)                           (* new Redis({...}) *)
| Cluster (startupNodes : list node) (redisOptions : RedisOptions).
                                   (* new Redis.Cluster(nodes, { redisOptions }) *)

(** The options object the client was constructed with. *)
Definition options_of (c : client) : RedisOptions :=
  match c with
  | Single o => o
  | Cluster _ o => o
  end.

(** The hook the transport has been given for its reconnect attempts. *)
Definition retry_hook (c : client) :=
  retryStrategy (options_of c).

End Redis.

(* ================================================================== *)
(** ** The Express application the handlers are registered on *)
(* ================================================================== *)

Module Express.

Inductive method : Type := GET | HEAD | POST | PUT | PATCH | DELETE | OPTIONS.

(** An inbound request: its method, the segments of its path
    (["/a/b"] is [["a"; "b"]], ["/a/"] is [["a"; ""]]) and whether [req.body]
    has been filled in by a body parser. *)
Record request : Type := Request {
  req_method : method;
  req_path : list string;
  body_parsed : bool
}.

Inductive body : Type :=
| Text (s : string)
| Json (fields : list (string * string)).

(** The three webhook registries a [webhookRequestHandler] is built from. *)
Inductive manager : Type := ActiveWorkflowRunner | WaitingWebhooks | TestWebhooks.

(** The errors of ResponseHelper the class raises. *)
Inductive ResponseError : Type :=
| ServiceUnavailableError (message : string).

(** How a request ends. *)
Inductive response : Type :=
| Sent (status : Z) (b : body)              (* res.send(..), status 200 *)
| ErrorSent (e : ResponseError)             (* sendErrorResponse(res, e) *)
| Webhook (m : manager) (seen : request)    (* webhookRequestHandler(m)(req, res) *)
| CancelTestWebhook (id : string)           (* testWebhooks.cancelTestWebhook(id) *)
| NotFound.                                 (* no layer answered: Express' 404 *)

(** A handler answers, or calls [next()]. *)
Inductive step : Type :=
| Respond (r : response)
| Next (r : request).

(** Path templates, by segment: a literal, [:name], [:name?] and the
    catch-all parameter ([:path] followed by a starred group). *)
Inductive token : Type :=
| Lit (s : string)
| Param
| OptParam
| Star.

Definition template : Type := list token.

Definition lower (c : ascii) : ascii :=
  let n := nat_of_ascii c in
  if (Nat.leb 65 n && Nat.leb n 90)%bool then ascii_of_nat (n + 32) else c.

Fixpoint lowercase (s : string) : string :=
  match s with
  | EmptyString => EmptyString
  | String c s' => String (lower c) (lowercase s')
  end.

(** Express routes are case insensitive unless configured otherwise. *)
Definition seg_eqb (a b : string) : bool :=
  String.eqb (lowercase a) (lowercase b).

Definition nonempty (s : string) : bool := negb (String.eqb s "").

(** Does a template match a path?  A closing slash is optional; [:name]
    takes one non-empty segment; the catch-all takes whatever follows the
    slash after its prefix. *)
Fixpoint match_path (t : template) (p : list string) : bool :=
  match t with
  | [] => match p with
          | [] => true
          | [s] => String.eqb s ""
          | _ => false
          end
  | Lit s :: t' =>
      match p with
      | x :: p' => seg_eqb s x && match_path t' p'
      | [] => false
      end
  | Param :: t' =>
      match p with
      | x :: p' => nonempty x && match_path t' p'
      | [] => false
      end
  | OptParam :: t' =>
      match_path t' p
      || match p with
         | x :: p' => nonempty x && match_path t' p'
         | [] => false
         end
  | Star :: _ =>
      match p with
      | [] => false
      | _ :: _ => true
      end
  end.

(** [Db.connectionState], the object shared with the storage layer; the
    gate reads it anew on every request. *)
Record connectionState : Type := ConnectionState {
  connected : bool;
  migrated : bool
}.

(** The handlers [AbstractServer] registers. *)
Inductive handler : Type :=
| healthz                       (* (req, res) => res.send({ status: 'ok' }) *)
| dbGate                        (* the closure over connectionState *)
| sentryRequestHandler
| sentryErrorHandler
| compression
| rawBody
| corsMiddleware
| jsonParser
| webhookRequestHandler (m : manager)
| cancelTestWebhook.

(** app.use / app.all / app.get / app.delete *)
Inductive verb : Type := Use | All | Get | Delete.

Record layer : Type := Layer {
  l_verb : verb;
  l_route : template;
  l_handler : handler
}.

Definition method_ok (v : verb) (m : method) : bool :=
  match v, m with
  | Use, _ | All, _ => true
  | Get, GET | Get, HEAD => true
  | Delete, DELETE => true
  | _, _ => false
  end.

(** [app.use(fn)] is mounted at the root and sees every request. *)
Definition layer_matches (l : layer) (r : request) : bool :=
  method_ok (l_verb l) (req_method r)
  && match l_verb l with
     | Use => true
     | _ => match_path (l_route l) (req_path r)
     end.

(** [sendErrorResponse(res, error)] answers the request with the error. *)
Definition sendErrorResponse (e : ResponseError) : response := ErrorSent e.

(** The middleware registered right after the health route. *)
Definition gate (cs : connectionState) (r : request) : step :=
  if connected cs then
    if migrated cs then Next r
    else Respond (Sent 200 (Text "n8n is starting up. Please wait"))
  else Respond (sendErrorResponse (ServiceUnavailableError "Database is not ready!")).

(** Modelled from the spec: the middlewares of '@/middlewares' ([rawBody],
    [jsonParser], [corsMiddleware]), [compression] and the Sentry handlers
    come from files that are not at hand.  Each hands the request on to the
    next layer; [jsonParser] is the generic body parser and fills in
    [req.body] first. *)
Definition middleware (h : handler) (r : request) : step :=
  match h with
  | jsonParser =>
      Next {| req_method := req_method r; req_path := req_path r;
              body_parsed := true |}
  | _ => Next r
  end.

(** What each handler does with a request. *)
Definition run (cs : connectionState) (h : handler) (r : request) : step :=
  match h with
  | healthz => Respond (Sent 200 (Json [("status", "ok")]))
  | dbGate => gate cs r
  | webhookRequestHandler m => Respond (Webhook m r)
  | cancelTestWebhook => Respond (CancelTestWebhook (nth 2 (req_path r) ""))
  | sentryRequestHandler | sentryErrorHandler
  | compression | rawBody | corsMiddleware | jsonParser => middleware h r
  end.

(** The router: layers are tried in the order of their registration.  The
    answer Express gives by itself to an OPTIONS request whose path matches a
    route of another method (200 with the methods allowed) is not part of
    this function: statements that end in [NotFound] leave such requests
    aside. *)
Fixpoint dispatch (cs : connectionState) (stack : list layer) (r : request)
  : response :=
  match stack with
  | [] => NotFound
  | l :: rest =>
      if layer_matches l r then
        match run cs (l_handler l) r with
        | Respond x => x
        | Next r' => dispatch cs rest r'
        end
      else dispatch cs rest r
  end.

Definition is_webhook_route (l : layer) : bool :=
  match l_handler l with
  | webhookRequestHandler _ | cancelTestWebhook => true
  | _ => false
  end.


Definition is_body_parser (l : layer) : bool :=
  match l_handler l with
  | jsonParser => true
  | _ => false
  end.

Definition is_health_route (l : layer) : bool :=
  match l_handler l with
  | healthz => true
  | _ => false
  end.

(** No webhook route stands behind a body parser. *)
Fixpoint webhooks_before_parser (stack : list layer) : bool :=
  match stack with
  | [] => true
  | l :: rest =>
      if is_body_parser l
      then forallb (fun l' => negb (is_webhook_route l')) rest
      else webhooks_before_parser rest
  end.

End Express.

(* ================================================================== *)
(** ** The class [AbstractServer] *)
(* ================================================================== *)

Module AbstractServer.
Import Express.

(** The instance: its readonly fields (read from the configuration when it
    is constructed), the two protected switches subclasses set, and the
    configuration values and constants the methods read later. *)
Record server : Type := {
  port : Z;
  protocol : string;
  sslKey : string;
  sslCert : string;
  restEndpoint : string;
  endpointWebhook : string;
  endpointWebhookTest : string;
  endpointWebhookWaiting : string;
  webhooksEnabled : bool;
  testWebhooksEnabled : bool;
  listen_address : string;                  (* config 'listen_address' *)
  executions_mode : string;                 (* config 'executions.mode' *)
  redis_host : option string;               (* config 'queue.bull.redis' *)
  redis_port : option Z;
  redis_username : option string;
  redis_password : option string;
  redis_db : option Z;
  redisClusterNodes : list Redis.node;      (* getRedisClusterNodes() *)
  timeoutThreshold : Z;           (* config 'queue.bull.redis.timeoutThreshold' *)
  defaultLocale : string;
  inTest : bool;
  inDevelopment : bool
}.

(** What the outside world decides during start-up. *)
Inductive listen_outcome : Type :=
| Bound                          (* the 'listening' callback fires *)
| BindError (code : string).     (* the server emits 'error' *)

Record world : Type := {
  readFile : string -> option string;     (* [None]: the read throws *)
  tls_usable : string -> string -> bool;
      (* do these contents make a key and a certificate?
         [false]: https.createServer throws *)
  bind : listen_outcome
}.

Inductive listener : Type :=
| HttpServer
| HttpsServer (key cert : string).

Inductive message : Type :=
| PortInUse (p : Z)
| Version
| Ready (address : string) (p : Z)
| Locale (l : string)
| RedisInit (cluster : bool)
| RedisUnable (limit : Z).

(** The observable effects, in the order they happen. *)
Inductive event : Type :=
| FileRead (path : string)
| ServerCreated (l : listener)
| ListenCalled (p : Z) (address : string)
| Listening                       (* connections are accepted from here on *)
| ServerError (code : string)
| Registered (l : layer)
| ConsoleLog (m : message)
| LoggerDebug (m : message)
| ProcessExit (code : Z)
| RedisCreated (c : Redis.client)
| HookRun (name : string).

Record state : Type := State {
  this_server : option listener;
  app : list layer;               (* the router stack of this.app *)
  redis : option Redis.client;
  log : list event
}.

(** A server that has just been constructed. *)
Definition fresh : state :=
  {| this_server := None; app := []; redis := None; log := [] |}.

(** How a method ends: it returns, the process exits, it throws (the
    promise is rejected), or the promise it awaits never settles. *)
Inductive result (A : Type) : Type :=
| Done (a : A) (s : state)
| Exited (code : Z) (s : state)
| Thrown (s : state)
| Pending (s : state).
Arguments Done {A} a s.
Arguments Exited {A} code s.
Arguments Thrown {A} s.
Arguments Pending {A} s.

Definition M (A : Type) : Type := state -> result A.

Definition ret {A} (a : A) : M A := fun s => Done a s.

Definition bind_M {A B} (c : M A) (k : A -> M B) : M B :=
  fun s =>
    match c s with
    | Done a s' => k a s'
    | Exited code s' => Exited code s'
    | Thrown s' => Thrown s'
    | Pending s' => Pending s'
    end.

Notation "x <- c ;; k" := (bind_M c (fun x => k))
  (at level 61, c at next level, right associativity).
Notation "c ;; k" := (bind_M c (fun _ => k))
  (at level 61, right associativity).

Definition when (b : bool) (c : M unit) : M unit :=
  if b then c else ret tt.

Definition emit (e : event) : M unit :=
  fun s => Done tt {| this_server := this_server s; app := app s;
                      redis := redis s; log := log s ++ [e] |}.

(** app.get / app.all / app.delete / app.use: the layer goes to the end of
    the stack. *)
Definition register (l : layer) : M unit :=
  fun s => Done tt {| this_server := this_server s; app := app s ++ [l];
                      redis := redis s; log := log s ++ [Registered l] |}.

Definition exit {A} (code : Z) : M A :=
  fun s => Exited code {| this_server := this_server s; app := app s;
                          redis := redis s; log := log s ++ [ProcessExit code] |}.

Definition set_server (l : listener) : M unit :=
  fun s => Done tt {| this_server := Some l; app := app s;
                      redis := redis s; log := log s ++ [ServerCreated l] |}.

Definition set_redis (c : Redis.client) : M unit :=
  fun s => Done tt {| this_server := this_server s; app := app s;
                      redis := Some c; log := log s ++ [RedisCreated c] |}.

Definition read (w : world) (path : string) : M string :=
  fun s =>
    match readFile w path with
    | Some content =>
        Done content {| this_server := this_server s; app := app s;
                        redis := redis s; log := log s ++ [FileRead path] |}
    | None => Thrown s
    end.

(** [await new Promise((resolve) => server.listen(port, address, () =>
    resolve()))] with [onError] installed as the 'error' listener: only the
    'listening' callback resolves the promise. *)
Definition listen (w : world) (p : Z) (address : string)
           (onError : string -> M unit) : M unit :=
  emit (ListenCalled p address) ;;
  match bind w with
  | Bound => emit Listening
  | BindError code =>
      emit (ServerError code) ;;
      onError code ;;
      (fun s => Pending s)
  end.

(** A JavaScript string is truthy when it is not empty. *)
Definition truthy (s : string) : bool := negb (String.eqb s "").

(* ---------------------------------------------------------------- *)
(** *** setupRedisChecks *)

Definition sharedRedisOptions (srv : server) : Redis.RedisOptions :=
  {| Redis.host := None;
     Redis.port := None;
     Redis.username := redis_username srv;
     Redis.password := redis_password srv;
     Redis.db := redis_db srv;
     Redis.enableReadyCheck := Some false;
     Redis.maxRetriesPerRequest := Some None;
     Redis.retryStrategy := None |}.

(** The value of [const redis = usesRedisCluster ? ... : ...]. *)
Definition redisClient (srv : server) : Redis.client :=
  let clusterNodes := redisClusterNodes srv in
  let redisConnectionTimeoutLimit := timeoutThreshold srv in
  let usesRedisCluster := (0 <? List.length clusterNodes)%nat in
  if usesRedisCluster then
    Redis.Cluster
      (map (fun node => Redis.Node (Redis.node_host node) (Redis.node_port node))
           clusterNodes)
      (sharedRedisOptions srv)
  else
    Redis.Single
      {| Redis.host := redis_host srv;
         Redis.port := redis_port srv;
         Redis.username := Redis.username (sharedRedisOptions srv);
         Redis.password := Redis.password (sharedRedisOptions srv);
         Redis.db := Redis.db (sharedRedisOptions srv);
         Redis.enableReadyCheck := Redis.enableReadyCheck (sharedRedisOptions srv);
         Redis.maxRetriesPerRequest :=
           Redis.maxRetriesPerRequest (sharedRedisOptions srv);
         Redis.retryStrategy :=
           Some (RetryPolicy.retryStrategy redisConnectionTimeoutLimit) |}.

(** The 'close' and 'error' listeners only write warnings and are left out. *)
Definition setupRedisChecks (srv : server) : M unit :=
  emit (LoggerDebug (RedisInit (0 <? List.length (redisClusterNodes srv))%nat)) ;;
  set_redis (redisClient srv).

(* ---------------------------------------------------------------- *)
(** *** setupHealthCheck *)

Definition healthRoute : layer := Layer Get [Lit "healthz"] healthz.
Definition gateLayer : layer := Layer Use [] dbGate.

Definition setupHealthCheck (srv : server) : M unit :=
  (* health check should not care about DB connections *)
  register healthRoute ;;
  register gateLayer ;;
  when (String.eqb (executions_mode srv) "queue") (setupRedisChecks srv).

(* ---------------------------------------------------------------- *)
(** *** init *)

(** [https.createServer({ key, cert }, app)]: it throws when the contents
    read are no key and certificate it can use. *)
Definition create_https (w : world) (key cert : string) : M unit :=
  if tls_usable w key cert
  then set_server (HttpsServer key cert)
  else (fun s => Thrown s).

(** The first statement of [init]: the listener is an HTTPS server when the
    protocol is 'https' and both file names are set, else an HTTP server. *)
Definition createServer (srv : server) (w : world) : M unit :=
  if String.eqb (protocol srv) "https" && truthy (sslKey srv) && truthy (sslCert srv)
  then
    key <- read w (sslKey srv) ;;
    cert <- read w (sslCert srv) ;;
    create_https w key cert
  else
    set_server HttpServer.

(** The 'error' listener of the server. *)
Definition onServerError (srv : server) (code : string) : M unit :=
  when (String.eqb code "EADDRINUSE")
       (emit (ConsoleLog (PortInUse (port srv))) ;; exit 1).

(** The two [Container.get] assignments between [listen] and
    [setupHealthCheck] touch neither the listener nor the application. *)
Definition init (srv : server) (w : world) : M unit :=
  createServer srv w ;;
  let ADDRESS := listen_address srv in
  listen w (port srv) ADDRESS (onServerError srv) ;;
  setupHealthCheck srv ;;
  emit (ConsoleLog Version) ;;
  emit (ConsoleLog (Ready ADDRESS (port srv))).

(* ---------------------------------------------------------------- *)
(** *** start *)

Definition setupErrorHandlers : M unit :=
  register (Layer Use [] sentryRequestHandler) ;;
  register (Layer Use [] sentryErrorHandler).

Definition setupCommonMiddlewares : M unit :=
  register (Layer Use [] compression) ;;
  register (Layer Use [] rawBody).

Definition setupDevMiddlewares : M unit :=
  register (Layer Use [] corsMiddleware).

(** The two hooks of the class, with the empty bodies it gives them. *)
Definition setupPushServer : M unit := ret tt.
Definition configure : M unit := ret tt.

(** The four routes of [start].  Each template splices a configured
    endpoint into an Express path pattern; the templates below are what the
    pattern amounts to for an endpoint that is one plain path segment
    (letters, digits, '-' and '_'), which is what the theorems about
    matching assume of the endpoints.  Route parameters are taken from the
    path as they stand. *)
Definition activeRoute (srv : server) : layer :=
  Layer All [Lit (endpointWebhook srv); Star]
        (webhookRequestHandler ActiveWorkflowRunner).
Definition waitingRoute (srv : server) : layer :=
  Layer All [Lit (endpointWebhookWaiting srv); Param; OptParam]
        (webhookRequestHandler WaitingWebhooks).
Definition testRoute (srv : server) : layer :=
  Layer All [Lit (endpointWebhookTest srv); Star]
        (webhookRequestHandler TestWebhooks).
Definition cancelRoute (srv : server) : layer :=
  Layer Delete [Lit (restEndpoint srv); Lit "test-webhook"; Param]
        cancelTestWebhook.
Definition jsonLayer : layer := Layer Use [] jsonParser.

Definition start (srv : server) : M unit :=
  when (negb (inTest srv)) (setupErrorHandlers ;; setupPushServer) ;;
  setupCommonMiddlewares ;;
  (* webhook handlers before bodyParser *)
  when (webhooksEnabled srv)
       (register (activeRoute srv) ;;
        register (waitingRoute srv)) ;;
  when (testWebhooksEnabled srv)
       (register (testRoute srv) ;;
        register (cancelRoute srv)) ;;
  when (inDevelopment srv) setupDevMiddlewares ;;
  (* JSON parsing middleware after the webhook handlers *)
  register jsonLayer ;;
  configure ;;
  when (negb (inTest srv))
       (emit (ConsoleLog Version) ;;
        when (negb (String.eqb (defaultLocale srv) "en"))
             (emit (ConsoleLog (Locale (defaultLocale srv)))) ;;
        emit (HookRun "n8n.ready")).

(* ---------------------------------------------------------------- *)
(** *** Reading the event log *)

Definition is_route_registration (e : event) : bool :=
  match e with
  | Registered l => is_health_route l || is_webhook_route l
  | _ => false
  end.

Definition is_listening (e : event) : bool :=
  match e with
  | Listening => true
  | _ => false
  end.

Definition is_listen_call (e : event) : bool :=
  match e with
  | ListenCalled _ _ => true
  | _ => false
  end.

(** No route is registered once the listener accepts connections. *)
Fixpoint routes_before_listening (l : list event) : bool :=
  match l with
  | [] => true
  | e :: rest =>
      if is_listening e
      then forallb (fun e' => negb (is_route_registration e')) rest
      else routes_before_listening rest
  end.

(** The ordering in which every route is in place before the first
    connection can be accepted, for the health route [init] registers. *)
Definition routes_complete_before_listening : Prop :=
  forall srv w s,
    init srv w fresh = Done tt s ->
    routes_before_listening (log s) = true.

(** The layers [start] registers ahead of the JSON parser. *)
Definition early_layers (srv : server) : list layer :=
  (if negb (inTest srv)
   then [Layer Use [] sentryRequestHandler; Layer Use [] sentryErrorHandler]
   else [])
  ++ [Layer Use [] compression; Layer Use [] rawBody]
  ++ (if webhooksEnabled srv then [activeRoute srv; waitingRoute srv] else [])
  ++ (if testWebhooksEnabled srv then [testRoute srv; cancelRoute srv] else [])
  ++ (if inDevelopment srv then [Layer Use [] corsMiddleware] else []).

(** The stack [start] adds to the application. *)
Definition start_layers (srv : server) : list layer :=
  early_layers srv ++ [jsonLayer].

(** The events [setupHealthCheck] adds to the log. *)
Definition health_events (srv : server) : list event :=
  [Registered healthRoute; Registered gateLayer]
  ++ (if String.eqb (executions_mode srv) "queue"
      then [LoggerDebug (RedisInit (0 <? List.length (redisClusterNodes srv))%nat);
            RedisCreated (redisClient srv)]
      else []).

(** The events [start] adds to the log. *)
Definition start_events (srv : server) : list event :=
  map Registered (start_layers srv)
  ++ (if negb (inTest srv)
      then ConsoleLog Version
           :: (if negb (String.eqb (defaultLocale srv) "en")
               then [ConsoleLog (Locale (defaultLocale srv))]
               else [])
           ++ [HookRun "n8n.ready"]
      else []).

(** A state with more events in its log. *)
Definition logged (s : state) (evs : list event) : state :=
  {| this_server := this_server s; app := app s; redis := redis s;
     log := log s ++ evs |}.

(** The reading in which building the listener fails only when the key or
    the certificate file cannot be read. *)
Definition fatal_only_when_unreadable : Prop :=
  forall srv w s,
    (exists s', createServer srv w s = Thrown s') ->
    protocol srv = "https" /\ sslKey srv <> "" /\ sslCert srv <> ""
    /\ (readFile w (sslKey srv) = None \/ readFile w (sslCert srv) = None).

(** A world in which every file can be read and none holds a key or a
    certificate. *)
Definition garbled : world :=
  {| readFile := fun _ => Some "not a pem";
     tls_usable := fun _ _ => false;
     bind := Bound |}.

End AbstractServer.

(* ================================================================== *)
(** ** Sample instances *)
(* ================================================================== *)

Module Samples.
Import AbstractServer.

(** The configuration defaults, main process outside test and development. *)
Definition defaults : server :=
  {| port := 5678;
     protocol := "http";
     sslKey := "";
     sslCert := "";
     restEndpoint := "rest";
     endpointWebhook := "webhook";
     endpointWebhookTest := "webhook-test";
     endpointWebhookWaiting := "webhook-waiting";
     webhooksEnabled := true;
     testWebhooksEnabled := false;
     listen_address := "0.0.0.0";
     executions_mode := "regular";
     redis_host := Some "localhost";
     redis_port := Some 6379;
     redis_username := None;
     redis_password := None;
     redis_db := Some 0;
     redisClusterNodes := [];
     timeoutThreshold := 10000;
     defaultLocale := "en";
     inTest := false;
     inDevelopment := false |}.

Definition with_queue (nodes : list Redis.node) (srv : server) : server :=
  {| port := port srv; protocol := protocol srv;
     sslKey := sslKey srv; sslCert := sslCert srv;
     restEndpoint := restEndpoint srv;
     endpointWebhook := endpointWebhook srv;
     endpointWebhookTest := endpointWebhookTest srv;
     endpointWebhookWaiting := endpointWebhookWaiting srv;
     webhooksEnabled := webhooksEnabled srv;
     testWebhooksEnabled := testWebhooksEnabled srv;
     listen_address := listen_address srv;
     executions_mode := "queue";
     redis_host := redis_host srv; redis_port := redis_port srv;
     redis_username := redis_username srv;
     redis_password := redis_password srv;
     redis_db := redis_db srv;
     redisClusterNodes := nodes;
     timeoutThreshold := timeoutThreshold srv;
     defaultLocale := defaultLocale srv;
     inTest := inTest srv; inDevelopment := inDevelopment srv |}.

Definition with_tls (proto key cert : string) (srv : server) : server :=
  {| port := port srv; protocol := proto;
     sslKey := key; sslCert := cert;
     restEndpoint := restEndpoint srv;
     endpointWebhook := endpointWebhook srv;
     endpointWebhookTest := endpointWebhookTest srv;
     endpointWebhookWaiting := endpointWebhookWaiting srv;
     webhooksEnabled := webhooksEnabled srv;
     testWebhooksEnabled := testWebhooksEnabled srv;
     listen_address := listen_address srv;
     executions_mode := executions_mode srv;
     redis_host := redis_host srv; redis_port := redis_port srv;
     redis_username := redis_username srv;
     redis_password := redis_password srv;
     redis_db := redis_db srv;
     redisClusterNodes := redisClusterNodes srv;
     timeoutThreshold := timeoutThreshold srv;
     defaultLocale := defaultLocale srv;
     inTest := inTest srv; inDevelopment := inDevelopment srv |}.

(** A world in which every file can be read and the port is free. *)
Definition calm : world :=
  {| readFile := fun path => Some ("<" ++ path ++ ">")%string;
     tls_usable := fun _ _ => true;
     bind := Bound |}.

(** A world in which another process holds the port. *)
Definition port_taken : world :=
  {| readFile := fun path => Some ("<" ++ path ++ ">")%string;
     tls_usable := fun _ _ => true;
     bind := BindError "EADDRINUSE" |}.

(** A world in which no file can be read. *)
Definition unreadable : world :=
  {| readFile := fun _ => None; tls_usable := fun _ _ => true; bind := Bound |}.

Definition ready : Express.connectionState := Express.ConnectionState true true.
Definition migrating : Express.connectionState := Express.ConnectionState true false.
Definition disconnected : Express.connectionState := Express.ConnectionState false false.

End Samples.

(* ================================================================== *)
(** ** Shapes of failure sequences *)
(* ================================================================== *)

Module RetryRuns.

(** Every gap between successive failures, the first one counted from
    [last], is at most [bound]. *)
Fixpoint gaps_at_most (bound last : Z) (ts : list Z) : bool :=
  match ts with
  | [] => true
  | t :: ts' => (t - last <=? bound) && gaps_at_most bound t ts'
  end.

(** Every gap between successive failures, the first one counted from
    [last], is longer than [bound]. *)
Fixpoint gaps_above (bound last : Z) (ts : list Z) : bool :=
  match ts with
  | [] => true
  | t :: ts' => (bound <? t - last) && gaps_above bound t ts'
  end.

End RetryRuns.

(* ================================================================== *)
(** ** The listeners [setupRedisChecks] puts on the client *)
(* ================================================================== *)

Module RedisListeners.

(** [String.prototype.includes]: [sub] occurs somewhere in [s]. *)
Fixpoint includes (s sub : string) : bool :=
  String.prefix sub s
  || match s with
     | EmptyString => false
     | String _ s' => includes s' sub
     end.

(** A call of [LoggerProxy.warn], with the extra argument when there is one. *)
Inductive warning : Type :=
| Warn (message : string) (meta : option string).

(** redis.on('close', ...) *)
Definition onClose : list warning :=
  [Warn "Redis unavailable - trying to reconnect..." None].

(** redis.on('error', ...); [error] is the text [String(error)] yields. *)
Definition onError (error : string) : list warning :=
  if negb (includes error "ECONNREFUSED")
  then [Warn "Error with Redis: " (Some error)]
  else [].

End RedisListeners.

(* ================================================================== *)
(** ** Reading the state a bootstrap leaves *)
(* ================================================================== *)

Module Observations.
Import Express AbstractServer.

Definition creates_redis (e : event) : bool :=
  match e with
  | RedisCreated _ => true
  | _ => false
  end.

Definition is_registration (e : event) : bool :=
  match e with
  | Registered _ => true
  | _ => false
  end.

Definition is_console (e : event) : bool :=
  match e with
  | ConsoleLog _ => true
  | _ => false
  end.

Definition is_file_read (e : event) : bool :=
  match e with
  | FileRead _ => true
  | _ => false
  end.

(** The answers the gate and the health route give by themselves. *)
Definition healthy : response := Sent 200 (Json [("status", "ok")]).
Definition starting_up : response := Sent 200 (Text "n8n is starting up. Please wait").
Definition unavailable : response :=
  ErrorSent (ServiceUnavailableError "Database is not ready!").

(** The state a method leaves, however it ends. *)
Definition state_of {A} (r : result A) : state :=
  match r with
  | Done _ s | Exited _ s | Thrown s | Pending s => s
  end.

Definition after_init (srv : server) (w : world) : state :=
  state_of (init srv w fresh).

Definition after_start (srv : server) (w : world) : state :=
  state_of (start srv (after_init srv w)).

(** Sample instances with the two protected switches set. *)
Definition with_switches (webhooks test : bool) (srv : server) : server :=
  {| port := port srv; protocol := protocol srv;
     sslKey := sslKey srv; sslCert := sslCert srv;
     restEndpoint := restEndpoint srv;
     endpointWebhook := endpointWebhook srv;
     endpointWebhookTest := endpointWebhookTest srv;
     endpointWebhookWaiting := endpointWebhookWaiting srv;
     webhooksEnabled := webhooks;
     testWebhooksEnabled := test;
     listen_address := listen_address srv;
     executions_mode := executions_mode srv;
     redis_host := redis_host srv; redis_port := redis_port srv;
     redis_username := redis_username srv;
     redis_password := redis_password srv;
     redis_db := redis_db srv;
     redisClusterNodes := redisClusterNodes srv;
     timeoutThreshold := timeoutThreshold srv;
     defaultLocale := defaultLocale srv;
     inTest := inTest srv; inDevelopment := inDevelopment srv |}.

Definition editor : server := with_switches true true Samples.defaults.
Definition bare : server := with_switches false false Samples.defaults.

(** A world in which binding is refused for want of permission. *)
Definition no_permission : world :=
  {| readFile := fun path => Some ("<" ++ path ++ ">")%string;
     tls_usable := fun _ _ => true;
     bind := BindError "EACCES" |}.

(** A world in which only the certificate cannot be read. *)
Definition key_only : world :=
  {| readFile := fun path =>
                   if String.eqb path "/etc/n8n/key.pem" then Some "KEY" else None;
     tls_usable := fun _ _ => true;
     bind := Bound |}.

End Observations.

(* ================================================================== *)
(** ** The owner controller *)
(* ================================================================== *)

Module OwnerController.

Record role : Type := { scope : string; name : string }.

(** The user entity carried by the request ([req.user]). *)
Record user : Type := {
  id : string;
  email : option string;
  firstName : option string;
  lastName : option string;
  password : option string;
  globalRole : role
}.

(** The payload of POST /owner/setup; a field that is missing is [None]. *)
Record payload : Type := {
  body_email : option string;
  body_firstName : option string;
  body_lastName : option string;
  body_password : option string
}.

Inductive failure : Type :=
| BadRequestError (message : string)
| Rejection (from : string).        (* a collaborator threw or rejected *)

Inductive outcome (R : Type) : Type :=
| Returned (r : R)
| Threw (e : failure).
Arguments Returned {R} r.
Arguments Threw {R} e.

(** What the controller is given: the functions it imports and the services
    it is constructed with.  Each may refuse. *)
Record collaborators (R : Type) : Type := {
  isEmail : string -> bool;                              (* validator.isEmail *)
  validatePassword : option string -> failure + string;  (* throws or returns *)
  hashPassword : string -> option string;
  validateEntity : user -> option failure;               (* [Some]: throws *)
  save : user -> option user;                            (* userService.save *)
  updateSetting : string -> string -> bool;   (* settingsRepository.update *)
  issueCookie : user -> bool;
  publicUser : user -> R              (* withFeatureFlags(.., sanitizeUser(..)) *)
}.
Arguments isEmail {R} c _.
Arguments validatePassword {R} c _.
Arguments hashPassword {R} c _.
Arguments validateEntity {R} c _.
Arguments save {R} c _.
Arguments updateSetting {R} c _ _.
Arguments issueCookie {R} c _.
Arguments publicUser {R} c _.

Inductive effect : Type :=
| LogDebug (message : string)
| LogInfo (message : string)
| Saved (u : user)
| SettingUpdated (key value : string)
| ConfigSet (key : string) (value : bool)
| CookieIssued (u : user)
| OwnerSetupHook (user_id : string).

(** The configuration flag the controller reads and sets, and what it has
    done so far. *)
Record store : Type := {
  isInstanceOwnerSetUp : bool;
  trail : list effect
}.

Definition note (st : store) (es : list effect) : store :=
  {| isInstanceOwnerSetUp := isInstanceOwnerSetUp st; trail := trail st ++ es |}.

(** [!value] for a string that may be missing. *)
Definition falsy (value : option string) : bool :=
  match value with
  | None => true
  | Some s => String.eqb s ""
  end.

Definition text (value : option string) : string :=
  match value with
  | Some s => s
  | None => ""
  end.

(** [setupOwner(req, res)]: the result, the store and [req.user] as the call
    leaves them. *)
Definition setupOwner {R} (c : collaborators R) (body : payload) (req_user : user)
           (st : store) : outcome R * store * user :=
  let userId := id req_user in
  if isInstanceOwnerSetUp st then
    (Threw (BadRequestError "Instance owner already setup"),
     note st [LogDebug "Request to claim instance ownership failed because instance owner already exists"],
     req_user)
  else if falsy (body_email body) || negb (isEmail c (text (body_email body))) then
    (Threw (BadRequestError "Invalid email address"),
     note st [LogDebug "Request to claim instance ownership failed because of invalid email"],
     req_user)
  else
    match validatePassword c (body_password body) with
    | inl e => (Threw e, st, req_user)
    | inr validPassword =>
        if falsy (body_firstName body) || falsy (body_lastName body) then
          (Threw (BadRequestError "First and last names are mandatory"),
           note st [LogDebug "Request to claim instance ownership failed because of missing first name or last name in payload"],
           req_user)
        else if String.eqb (scope (globalRole req_user)) "global"
                && negb (String.eqb (name (globalRole req_user)) "owner") then
          (Threw (BadRequestError "Invalid request"),
           note st [LogDebug "Request to claim instance ownership failed because user shell does not exist or has wrong role!"],
           req_user)
        else
          match hashPassword c validPassword with
          | None => (Threw (Rejection "hashPassword"), st, req_user)
          | Some hashed =>
              (* Object.assign(owner, ...) writes into req.user itself *)
              let owner := {| id := id req_user;
                              email := body_email body;
                              firstName := body_firstName body;
                              lastName := body_lastName body;
                              password := Some hashed;
                              globalRole := globalRole req_user |} in
              match validateEntity c owner with
              | Some e => (Threw e, st, owner)
              | None =>
                  match save c owner with
                  | None => (Threw (Rejection "userService.save"), st, owner)
                  | Some saved =>
                      let st1 := note st [Saved owner;
                                          LogInfo "Owner was set up successfully"] in
                      if updateSetting c "userManagement.isInstanceOwnerSetUp" "true"
                      then
                        let st2 :=
                          {| isInstanceOwnerSetUp := true;
                             trail := trail st1
                                      ++ [SettingUpdated "userManagement.isInstanceOwnerSetUp" "true";
                                          ConfigSet "userManagement.isInstanceOwnerSetUp" true;
                                          LogDebug "Setting isInstanceOwnerSetUp updated successfully"] |} in
                        if issueCookie c saved then
                          (Returned (publicUser c saved),
                           note st2 [CookieIssued saved; OwnerSetupHook userId],
                           owner)
                        else (Threw (Rejection "issueCookie"), st2, owner)
                      else (Threw (Rejection "settingsRepository.update"), st1, owner)
                  end
              end
          end
    end.

(** The effects that outlive the request. *)
Definition durable (e : effect) : bool :=
  match e with
  | LogDebug _ | LogInfo _ => false
  | _ => true
  end.

(** Sample collaborators: every address with an at sign is an e-mail
    address, passwords of eight characters or more are valid, nothing else
    refuses. *)
Definition lenient : collaborators user :=
  {| isEmail := fun s => RedisListeners.includes s "@";
     validatePassword := fun p =>
       match p with
       | Some s => if Nat.leb 8 (String.length s) then inr s
                   else inl (BadRequestError "Password too short")
       | None => inl (BadRequestError "Password is required")
       end;
     hashPassword := fun s => Some ("#" ++ s)%string;
     validateEntity := fun _ => None;
     save := fun u => Some u;
     updateSetting := fun _ _ => true;
     issueCookie := fun _ => true;
     publicUser := fun u => u |}.

(** The same, with a cookie that cannot be issued. *)
Definition cookieless : collaborators user :=
  {| isEmail := isEmail lenient;
     validatePassword := validatePassword lenient;
     hashPassword := hashPassword lenient;
     validateEntity := validateEntity lenient;
     save := save lenient;
     updateSetting := updateSetting lenient;
     issueCookie := fun _ => false;
     publicUser := publicUser lenient |}.

Definition shell : user :=
  {| id := "1"; email := None; firstName := None; lastName := None;
     password := None; globalRole := {| scope := "global"; name := "owner" |} |}.

Definition claim : payload :=
  {| body_email := Some "ada@example.com";
     body_firstName := Some "Ada";
     body_lastName := Some "Lovelace";
     body_password := Some "Analytical1" |}.

Definition untouched : store := {| isInstanceOwnerSetUp := false; trail := [] |}.

End OwnerController.

(* ================================================================== *)
(** ** The endpoints of a node on the canvas *)
(* ================================================================== *)

Module NodeBase.

(** The value of [index] in the callbacks: a number or, for the input name
    ['__proto__'], the prototype object that reading that property yields. *)
Inductive jsindex : Type :=
| Num (n : nat)
| ObjectPrototype.

(** The own properties of the object literal [indexData]. *)
Definition indexData : Type := list (string * nat).

Fixpoint own (d : indexData) (key : string) : option nat :=
  match d with
  | [] => None
  | (k, v) :: d' => if String.eqb k key then Some v else own d' key
  end.

Fixpoint assign (d : indexData) (key : string) (v : nat) : indexData :=
  match d with
  | [] => [(key, v)]
  | (k, v0) :: d' =>
      if String.eqb k key then (k, v) :: d' else (k, v0) :: assign d' key v
  end.

(** The first statements of both callbacks: count the name and read the
    count back.  [None] is the TypeError of calling
    [indexData.hasOwnProperty] once an input named 'hasOwnProperty' has put a
    number in its place; assigning a number to ['__proto__'] changes
    nothing. *)
Definition nextIndex (d : indexData) (inputName : string)
  : option (indexData * jsindex) :=
  match own d "hasOwnProperty" with
  | Some _ => None
  | None =>
      if String.eqb inputName "__proto__" then Some (d, ObjectPrototype)
      else
        match own d inputName with
        | Some n => Some (assign d inputName (S n), Num (S n))
        | None => Some (assign d inputName 0, Num 0)
        end
  end.

(** [array[index]]; an index that is no number finds nothing. *)
Definition at_index {A} (l : list A) (i : jsindex) : option A :=
  match i with
  | Num n => nth_error l n
  | ObjectPrototype => None
  end.

Record Meta : Type := {
  meta_nodeName : string;
  meta_nodeId : string;
  meta_index : nat;
  meta_totalEndpoints : nat
}.

(** The options handed to [instance.addEndpoint], with the [__meta] that the
    output callback attaches to the endpoint afterwards. *)
Record EndpointOptions (A O : Type) : Type := {
  uuid : string;
  anchor : option A;
  maxConnections : Z;
  endpoint : string;
  source : bool;
  target : bool;
  parameters : string * string * jsindex;        (* nodeId, type, index *)
  enabled : bool;
  cssClass : option string;
  dragAllowedWhenFull : bool;
  connectorOverlays : option (list O);
  meta : option Meta
}.
Arguments uuid {A O} _.
Arguments anchor {A O} _.
Arguments parameters {A O} _.
Arguments enabled {A O} _.
Arguments source {A O} _.
Arguments target {A O} _.
Arguments meta {A O} _.
Arguments connectorOverlays {A O} _.

(** What the mixin takes from elsewhere: the anchor tables and functions of
    canvasHelpers, and whether the jsPlumb instance takes an endpoint
    ([false]: [addEndpoint] throws). *)
Record helpers (A O : Type) : Type := {
  ANCHOR_POSITIONS_input : nat -> option (list A);
  ANCHOR_POSITIONS_output : nat -> option (list A);
  getInputEndpointUUID : string -> jsindex -> string;
  getOutputEndpointUUID : string -> jsindex -> string;
  getOutputNameOverlay : option string -> O;
  addEndpoint : EndpointOptions A O -> bool
}.
Arguments ANCHOR_POSITIONS_input {A O} _ _.
Arguments ANCHOR_POSITIONS_output {A O} _ _.
Arguments getInputEndpointUUID {A O} _ _ _.
Arguments getOutputEndpointUUID {A O} _ _ _.
Arguments getOutputNameOverlay {A O} _ _.
Arguments addEndpoint {A O} _ _.

Section Mixin.
Context {A O : Type}.
Variable h : helpers A O.
Variable nodeId : string.          (* this.nodeId *)
Variable isReadOnly : bool.        (* this.isReadOnly *)

(** The [forEach] of [__addInputEndpoints] over the inputs that are left;
    the result is the endpoints of the instance and whether the loop ran to
    its end ([false]: an exception has left it). *)
Fixpoint addInputs (total : nat) (inputs : list string) (d : indexData)
         (instance : list (EndpointOptions A O))
  : list (EndpointOptions A O) * bool :=
  match inputs with
  | [] => (instance, true)
  | inputName :: rest =>
      match nextIndex d inputName with
      | None => (instance, false)
      | Some (d', index) =>
          match ANCHOR_POSITIONS_input h total with
          | None => (instance, false)          (* undefined[index] *)
          | Some row =>
              let newEndpointData :=
                {| uuid := getInputEndpointUUID h nodeId index;
                   anchor := at_index row index;
                   maxConnections := -1;
                   endpoint := "Rectangle";
                   source := false;
                   target := true;
                   parameters := (nodeId, inputName, index);
                   enabled := negb isReadOnly;
                   cssClass := Some "rect-input-endpoint";
                   dragAllowedWhenFull := true;
                   connectorOverlays := None;
                   meta := None |} in
              if addEndpoint h newEndpointData
              then addInputs total rest d' (instance ++ [newEndpointData])
              else (instance, false)
          end
      end
  end.

Definition __addInputEndpoints (inputs : list string)
           (instance : list (EndpointOptions A O)) :=
  addInputs (List.length inputs) inputs [] instance.

(** The [forEach] of [__addOutputEndpoints]; [i] is the position of the
    output at hand. *)
Fixpoint addOutputs (nodeName : string) (outputNames : option (list string))
         (total i : nat) (outputs : list string) (d : indexData)
         (instance : list (EndpointOptions A O))
  : list (EndpointOptions A O) * bool :=
  match outputs with
  | [] => (instance, true)
  | inputName :: rest =>
      match nextIndex d inputName with
      | None => (instance, false)
      | Some (d', index) =>
          match ANCHOR_POSITIONS_output h total with
          | None => (instance, false)
          | Some row =>
              if negb isReadOnly then
                let newEndpointData :=
                  {| uuid := getOutputEndpointUUID h nodeId index;
                     anchor := at_index row index;
                     maxConnections := -1;
                     endpoint := "Dot";
                     source := true;
                     target := false;
                     parameters := (nodeId, inputName, index);
                     enabled := negb isReadOnly;
                     cssClass := None;
                     dragAllowedWhenFull := false;
                     connectorOverlays :=
                       match outputNames with
                       | Some names =>
                           Some [getOutputNameOverlay h (at_index names index)]
                       | None => None
                       end;
                     meta := Some {| meta_nodeName := nodeName;
                                     meta_nodeId := nodeId;
                                     meta_index := i;
                                     meta_totalEndpoints := total |} |} in
                if addEndpoint h newEndpointData
                then addOutputs nodeName outputNames total (S i) rest d'
                                (instance ++ [newEndpointData])
                else (instance, false)
              else addOutputs nodeName outputNames total (S i) rest d' instance
          end
      end
  end.

Definition __addOutputEndpoints (nodeName : string)
           (outputNames : option (list string)) (outputs : list string)
           (instance : list (EndpointOptions A O)) :=
  addOutputs nodeName outputNames (List.length outputs) 0 outputs [] instance.

End Mixin.

(** Input names that are no special property of a JavaScript object. *)
Definition ordinary (inputName : string) : Prop :=
  inputName <> "hasOwnProperty" /\ inputName <> "__proto__".

(** Each name with the number of times it has occurred before. *)
Fixpoint numbered (seen names : list string) : list (string * jsindex) :=
  match names with
  | [] => []
  | x :: rest => (x, Num (count_occ string_dec seen x)) :: numbered (x :: seen) rest
  end.

(** Sample helpers: four anchors for every number of endpoints, UUIDs that
    tell inputs from outputs and nothing else, an instance that takes every
    endpoint. *)
Definition plain : helpers nat string :=
  {| ANCHOR_POSITIONS_input := fun _ => Some [0; 1; 2; 3]%nat;
     ANCHOR_POSITIONS_output := fun _ => Some [0; 1; 2; 3]%nat;
     getInputEndpointUUID := fun node i =>
       (node ++ "-input" ++ match i with Num 0 => "0" | Num 1 => "1" | _ => "n" end)%string;
     getOutputEndpointUUID := fun node i =>
       (node ++ "-output" ++ match i with Num 0 => "0" | Num 1 => "1" | _ => "n" end)%string;
     getOutputNameOverlay := fun name => match name with Some s => s | None => "" end;
     addEndpoint := fun _ => true |}.

(** The type and the index an endpoint carries in its parameters. *)
Definition type_and_index {A O} (o : EndpointOptions A O) : string * jsindex :=
  let '(_, type, index) := parameters o in (type, index).

(** [indexData] holds, for every name, one less than the number of times the
    name has been seen. *)
Definition tracks (d : indexData) (seen : list string) : Prop :=
  forall k,
    own d k = match count_occ string_dec seen k with
              | O => None
              | S n => Some n
              end.

End NodeBase.

(* ================================================================== *)
(** ** Endpoints and path segments the route templates are exact for *)
(* ================================================================== *)

Module Plain.
Import AbstractServer.

(** Letters, digits, '-' and '_': characters that stand for themselves when
    an endpoint is spliced into an Express path pattern. *)
Definition plain_char (c : ascii) : bool :=
  let n := nat_of_ascii c in
  (Nat.leb 48 n && Nat.leb n 57)
  || (Nat.leb 65 n && Nat.leb n 90)
  || (Nat.leb 97 n && Nat.leb n 122)
  || Nat.eqb n 45
  || Nat.eqb n 95.

Fixpoint every (f : ascii -> bool) (s : string) : bool :=
  match s with
  | EmptyString => true
  | String c s' => f c && every f s'
  end.

(** A configured endpoint that is one path segment without pattern
    characters, as 'rest', 'webhook', 'webhook-test' and 'webhook-waiting'
    are. *)
Definition plain_segment (s : string) : bool :=
  Express.nonempty s && every plain_char s.

Definition plain_endpoints (srv : server) : bool :=
  plain_segment (restEndpoint srv)
  && plain_segment (endpointWebhook srv)
  && plain_segment (endpointWebhookTest srv)
  && plain_segment (endpointWebhookWaiting srv).

(** A segment without '%': percent-decoding a route parameter taken from it
    gives the segment back and cannot fail. *)
Definition percent_free (s : string) : bool :=
  every (fun c => negb (Nat.eqb (nat_of_ascii c) 37)) s.

End Plain.

(* ================================================================== *)
(** ** Properties of the retry strategy *)
(* ================================================================== *)

Section RetryProperties.
Import RetryPolicy.

Lemma retryStrategy_reset limit now w :
  now - lastTimer w > 30000 ->
  retryStrategy limit now w = (Return 500, Window now 0).
Proof.
  intros Hgap. unfold retryStrategy.
  destruct (Z.gtb_spec (now - lastTimer w) 30000) as [_ | Hle]; [reflexivity | lia].
Qed.

Lemma retryStrategy_accumulate limit now w :
  now - lastTimer w <= 30000 ->
  retryStrategy limit now w =
    (if cumulativeTimeout w + (now - lastTimer w) >? limit then Exit 1 else Return 500,
     Window now (cumulativeTimeout w + (now - lastTimer w))).
Proof.
  intros Hgap. unfold retryStrategy.
  destruct (Z.gtb_spec (now - lastTimer w) 30000) as [Hgt | _]; [lia |].
  cbv zeta. destruct (_ >? limit); reflexivity.
Qed.

Lemma retry_verdict_cases limit now w :
  fst (retryStrategy limit now w) = Return 500
  \/ fst (retryStrategy limit now w) = Exit 1.
Proof.
  unfold retryStrategy.
  destruct (_ >? 30000); cbv zeta; [now left |].
  destruct (_ >? limit); [now right | now left].
Qed.

Lemma retry_fatal_step limit now w :
  0 <= limit ->
  (fst (retryStrategy limit now w) = Exit 1
   <-> cumulativeTimeout (snd (retryStrategy limit now w)) > limit).
Proof.
  intros Hlimit.
  destruct (Z.gtb_spec (now - lastTimer w) 30000) as [Hgt | Hle].
  - rewrite retryStrategy_reset by lia. simpl. split; [discriminate | lia].
  - rewrite retryStrategy_accumulate by exact Hle. simpl.
    destruct (Z.gtb_spec (cumulativeTimeout w + (now - lastTimer w)) limit);
      split; intros; try reflexivity; try discriminate; lia.
Qed.

Lemma elapsed_nonneg ts : forall last,
  chronological last ts = true -> 0 <= elapsed last ts.
Proof.
  induction ts as [| t ts IH]; intros last Hc; simpl in *; [lia |].
  apply andb_true_iff in Hc as [Hle Hc].
  apply Z.leb_le in Hle. specialize (IH t Hc). lia.
Qed.

Lemma reconnect_within_threshold limit ts : forall w,
  chronological (lastTimer w) ts = true ->
  0 <= cumulativeTimeout w ->
  cumulativeTimeout w + elapsed (lastTimer w) ts <= limit ->
  fst (reconnect limit ts w) = map (fun _ => Return 500) ts.
Proof.
  induction ts as [| t ts IH]; intros w Hc Hcum Htot; [reflexivity |].
  simpl in Hc, Htot. apply andb_true_iff in Hc as [Hle Hc].
  apply Z.leb_le in Hle.
  pose proof (elapsed_nonneg ts t Hc) as Hrest.
  simpl.
  destruct (Z.gtb_spec (t - lastTimer w) 30000) as [Hgap | Hgap].
  - rewrite retryStrategy_reset by lia.
    specialize (IH (Window t 0)). simpl in IH.
    destruct (reconnect limit ts (Window t 0)) as [vs w''].
    simpl in *. f_equal. apply IH; [exact Hc | lia | lia].
  - rewrite retryStrategy_accumulate by exact Hgap.
    destruct (Z.gtb_spec (cumulativeTimeout w + (t - lastTimer w)) limit)
      as [Hover | Hunder]; [lia |].
    specialize (IH (Window t (cumulativeTimeout w + (t - lastTimer w)))).
    simpl in IH.
    destruct (reconnect limit ts _) as [vs w''].
    simpl in *. f_equal. apply IH; [exact Hc | lia | lia].
Qed.

Lemma reconnect_stops_at_exit limit ts : forall w pre c post,
  fst (reconnect limit ts w) = pre ++ Exit c :: post ->
  c = 1 /\ post = [].
Proof.
  induction ts as [| t ts IH]; intros w pre c post Hrun; simpl in Hrun.
  - destruct pre; discriminate.
  - pose proof (retry_verdict_cases limit t w) as Hv.
    destruct (retryStrategy limit t w) as [v w']. simpl in Hv.
    destruct Hv as [-> | ->].
    + specialize (IH w').
      destruct (reconnect limit ts w') as [vs w'']. simpl in *.
      destruct pre as [| p pre]; simpl in Hrun; [discriminate |].
      injection Hrun as _ Hrun. exact (IH pre c post Hrun).
    + simpl in Hrun.
      destruct pre as [| p pre]; simpl in Hrun.
      * injection Hrun as Hc Hpost. split; congruence.
      * injection Hrun as _ Hrun. destruct pre; discriminate.
Qed.

(** C1 (as amended).  When more than 30 seconds have passed since the last
    failure, the call starts a fresh episode: whatever the counters were
    (hence after every failure history) the cumulative downtime is 0 when
    the call returns, the last failure time is [now], nothing is added for
    the gap, and the call returns the 500 ms delay. *)
Theorem retry_reset_after_quiet_period :
  forall limit now w,
    now - lastTimer w > 30000 ->
    retryStrategy limit now w = (Return 500, Window now 0)
    /\ cumulativeTimeout (snd (retryStrategy limit now w)) = 0.
Proof.
  intros limit now w Hgap.
  rewrite (retryStrategy_reset limit now w Hgap). split; reflexivity.
Qed.

Lemma retry_reset_after_quiet_period_witness :
  let w := snd (reconnect 10000 [1000000; 1004000] initial) in
  1050000 - lastTimer w > 30000
  /\ retryStrategy 10000 1050000 w = (Return 500, Window 1050000 0).
Proof.
  split.
  - vm_compute. reflexivity.
  - apply (retry_reset_after_quiet_period 10000 1050000
             (snd (reconnect 10000 [1000000; 1004000] initial))).
    vm_compute. reflexivity.
Defined.

(** C1 (counterexample).  After failures at 1000000 and 1004000 the
    counters hold 4000 ms of downtime; a failure 46 seconds later leaves a
    cumulative downtime of 0, not the 46000 ms that have elapsed. *)
Lemma retry_reset_adds_nothing : ~ reset_adds_elapsed.
Proof.
  intros H.
  specialize (H 10000 1050000 (snd (reconnect 10000 [1000000; 1004000] initial))).
  vm_compute in H. specialize (H eq_refl). discriminate H.
Qed.

Lemma retryStrategy_counted limit now w :
  retryStrategy limit now w
  = (if (now - lastTimer w <=? 30000)
        && (limit <? cumulativeTimeout w + (now - lastTimer w))
     then Exit 1 else Return 500,
     counted w now).
Proof.
  unfold counted.
  destruct (Z.gtb_spec (now - lastTimer w) 30000) as [Hgap | Hgap].
  - rewrite retryStrategy_reset by lia.
    destruct (Z.leb_spec (now - lastTimer w) 30000); [lia |].
    destruct (Z.ltb_spec 30000 (now - lastTimer w)); [reflexivity | lia].
  - rewrite retryStrategy_accumulate by exact Hgap.
    destruct (Z.leb_spec (now - lastTimer w) 30000); [| lia].
    destruct (Z.ltb_spec 30000 (now - lastTimer w)); [lia |]. simpl.
    destruct (Z.gtb_spec (cumulativeTimeout w + (now - lastTimer w)) limit);
      destruct (Z.ltb_spec limit (cumulativeTimeout w + (now - lastTimer w)));
      try lia; reflexivity.
Qed.

Lemma reconnect_app limit ts1 : forall ts2 w,
  fst (reconnect limit ts1 w) = map (fun _ => Return 500) ts1 ->
  reconnect limit (ts1 ++ ts2) w
  = (fst (reconnect limit ts1 w)
     ++ fst (reconnect limit ts2 (snd (reconnect limit ts1 w))),
     snd (reconnect limit ts2 (snd (reconnect limit ts1 w)))).
Proof.
  induction ts1 as [| t ts1 IH]; intros ts2 w Hrun; simpl in *.
  - destruct (reconnect limit ts2 w). reflexivity.
  - destruct (retryStrategy limit t w) as [[d | c] w'].
    + specialize (IH ts2 w').
      destruct (reconnect limit ts1 w') as [vs w'']. simpl in *.
      injection Hrun as _ Hrun. rewrite (IH Hrun). reflexivity.
    + simpl in Hrun. discriminate Hrun.
Qed.

(** C2 (counterexample).  With the threshold -1, the first failure of a
    new closure (at time 1000000) opens an episode: the downtime counted is
    0, which exceeds the threshold, and the call returns the delay. *)
Lemma negative_threshold_is_not_fatal_on_reset : ~ fatal_iff_downtime_exceeds.
Proof.
  intros Hclaim.
  destruct (Hclaim (-1) 1000000 initial) as [_ Hexit].
  assert (H : fst (retryStrategy (-1) 1000000 initial) = Exit 1)
    by (apply Hexit; vm_compute; reflexivity).
  vm_compute in H. discriminate H.
Qed.

(** C2 (as amended).  A call of the retry strategy ends the process exactly
    when the failure belongs to the running episode (it comes no more than
    30 seconds after the last one) and the downtime counted so far plus the
    time elapsed since the last failure exceeds the threshold; otherwise it
    returns the 500 ms delay; either way it leaves the counters as the rule
    of the policy counts them.  A failure that opens a new episode is never
    fatal, so the verdict is fatal exactly when the downtime counted exceeds
    the threshold for thresholds that are not negative.  Over every sequence
    of failures after each of which the downtime counted is at most the
    threshold, every call returns 500 and the counters are what the rule
    counts; so it is over a chronological sequence whose total elapsed time
    (on top of the downtime already counted) stays within the threshold, from
    any counters and, counting from the first failure, from the counters of a
    new closure.  A fatal verdict is the last one: the attempts behind it are
    never made. *)
Theorem retry_fatal_iff_running_episode_over_threshold :
  forall limit,
    (forall now w,
        retryStrategy limit now w
        = (if (now - lastTimer w <=? 30000)
              && (limit <? cumulativeTimeout w + (now - lastTimer w))
           then Exit 1 else Return 500,
           counted w now)
        /\ (fst (retryStrategy limit now w) = Exit 1
            <-> now - lastTimer w <= 30000
                /\ cumulativeTimeout w + (now - lastTimer w) > limit)
        /\ (fst (retryStrategy limit now w) = Return 500
            <-> now - lastTimer w > 30000
                \/ cumulativeTimeout w + (now - lastTimer w) <= limit)
        /\ (0 <= limit ->
            (fst (retryStrategy limit now w) = Exit 1
             <-> cumulativeTimeout (counted w now) > limit)))
    /\ (forall ts w,
           (forall k, (k < List.length ts)%nat ->
                      cumulativeTimeout (fold_left counted (firstn (S k) ts) w)
                      <= limit) ->
           fst (reconnect limit ts w) = map (fun _ => Return 500) ts
           /\ snd (reconnect limit ts w) = fold_left counted ts w)
    /\ (forall ts w,
           chronological (lastTimer w) ts = true ->
           0 <= cumulativeTimeout w ->
           cumulativeTimeout w + elapsed (lastTimer w) ts <= limit ->
           fst (reconnect limit ts w) = map (fun _ => Return 500) ts)
    /\ (forall t ts,
           30000 < t ->
           chronological t ts = true ->
           elapsed t ts <= limit ->
           fst (reconnect limit (t :: ts) initial)
           = map (fun _ => Return 500) (t :: ts))
    /\ (forall before now behind w,
           fst (reconnect limit before w) = map (fun _ => Return 500) before ->
           now - lastTimer (snd (reconnect limit before w)) <= 30000 ->
           cumulativeTimeout (snd (reconnect limit before w))
           + (now - lastTimer (snd (reconnect limit before w))) > limit ->
           fst (reconnect limit (before ++ now :: behind) w)
           = map (fun _ => Return 500) before ++ [Exit 1]).
Proof.
  intros limit. split; [| split; [| split; [| split]]].
  - intros now w. rewrite retryStrategy_counted. cbn [fst].
    destruct (Z.leb_spec (now - lastTimer w) 30000) as [Hgap | Hgap];
      destruct (Z.ltb_spec limit (cumulativeTimeout w + (now - lastTimer w)))
        as [Hover | Hunder]; cbn [andb];
      (split; [reflexivity |]);
      (split; [split; [try discriminate; intros; lia
                      | try reflexivity; intros; lia] |]);
      (split; [split; [try discriminate; intros; lia
                      | try reflexivity; intros; lia] |]);
      intros Hlimit; unfold counted;
      destruct (Z.ltb_spec 30000 (now - lastTimer w)); try lia; cbn;
      (split; [try discriminate; intros; lia | try reflexivity; intros; lia]).
  - intros ts. induction ts as [| t ts IH]; intros w Hwithin.
    + split; reflexivity.
    + pose proof (Hwithin O ltac:(simpl; lia)) as Hfirst.
      cbn [firstn fold_left] in Hfirst.
      assert (Hstep : retryStrategy limit t w = (Return 500, counted w t)).
      { rewrite retryStrategy_counted. f_equal.
        unfold counted in Hfirst.
        destruct (Z.leb_spec (t - lastTimer w) 30000) as [Hgap | Hgap];
          [| reflexivity].
        destruct (Z.ltb_spec 30000 (t - lastTimer w)); [lia |].
        simpl in Hfirst.
        destruct (Z.ltb_spec limit (cumulativeTimeout w + (t - lastTimer w)));
          [lia | reflexivity]. }
      cbn [reconnect fold_left]. rewrite Hstep.
      destruct (IH (counted w t)) as [Hv Hw].
      { intros k Hk. apply (Hwithin (S k)). simpl. lia. }
      destruct (reconnect limit ts (counted w t)) as [vs w''].
      simpl in *. split; [now rewrite Hv | exact Hw].
  - intros ts w. apply reconnect_within_threshold.
  - intros t ts Hclock Hc Htot. simpl.
    rewrite retryStrategy_reset by (simpl; lia).
    pose proof (reconnect_within_threshold limit ts (Window t 0) Hc) as Hrun.
    simpl in Hrun. destruct (reconnect limit ts (Window t 0)) as [vs w'].
    simpl in *. f_equal. apply Hrun; lia.
  - intros before now behind w Hbefore Hgap Hover.
    rewrite (reconnect_app limit before (now :: behind) w Hbefore). cbn [fst].
    rewrite Hbefore. f_equal. cbn [reconnect].
    rewrite retryStrategy_accumulate by exact Hgap.
    destruct (Z.gtb_spec
                (cumulativeTimeout (snd (reconnect limit before w))
                 + (now - lastTimer (snd (reconnect limit before w)))) limit);
      [reflexivity | lia].
Qed.

Lemma retry_fatal_iff_running_episode_over_threshold_witness :
  fst (reconnect 10000 [1000000; 1004000; 1009000] (Window 1000000 0))
  = [Return 500; Return 500; Return 500]
  /\ fst (reconnect 10000 ([1000000; 1004000; 1009000] ++ 1012000 :: [1012500; 1013000])
                    (Window 1000000 0))
     = [Return 500; Return 500; Return 500] ++ [Exit 1].
Proof.
  split.
  - apply (proj1 (proj2 (proj2 (retry_fatal_iff_running_episode_over_threshold 10000)))
               [1000000; 1004000; 1009000] (Window 1000000 0)).
    + reflexivity.
    + simpl. lia.
    + simpl. lia.
  - apply (proj2 (proj2 (proj2 (proj2
                    (retry_fatal_iff_running_episode_over_threshold 10000))))
             [1000000; 1004000; 1009000] 1012000 [1012500; 1013000]
             (Window 1000000 0)).
    + reflexivity.
    + vm_compute. discriminate.
    + vm_compute. reflexivity.
Defined.

End RetryProperties.

(* ================================================================== *)
(** ** Properties of the Redis client *)
(* ================================================================== *)

Section RedisProperties.
Import AbstractServer.

(** C5.  Which reconnect hook the transport is given: with no cluster node
    configured the single-node client carries the retry strategy over the
    configured threshold; with cluster nodes configured the cluster client is
    built from the shared options alone, which hold no retry strategy. *)
Theorem retry_hook_by_topology :
  forall srv,
    (redisClusterNodes srv = [] ->
     Redis.retry_hook (redisClient srv)
     = Some (RetryPolicy.retryStrategy (timeoutThreshold srv)))
    /\ (redisClusterNodes srv <> [] ->
        Redis.retry_hook (redisClient srv) = None
        /\ exists nodes, redisClient srv = Redis.Cluster nodes (sharedRedisOptions srv)).
Proof.
  intros srv. unfold redisClient. split; intros Hnodes.
  - rewrite Hnodes. reflexivity.
  - destruct (redisClusterNodes srv) as [| n ns]; [contradiction |].
    simpl. split; [reflexivity | eexists; reflexivity].
Qed.

Lemma retry_hook_by_topology_witness :
  Redis.retry_hook
    (redisClient (Samples.with_queue [Redis.Node "redis-1" 7000] Samples.defaults))
  = None
  /\ Redis.retry_hook (redisClient (Samples.with_queue [] Samples.defaults))
     = Some (RetryPolicy.retryStrategy 10000).
Proof.
  split.
  - apply (proj2 (retry_hook_by_topology
                    (Samples.with_queue [Redis.Node "redis-1" 7000] Samples.defaults))).
    discriminate.
  - apply (proj1 (retry_hook_by_topology (Samples.with_queue [] Samples.defaults))).
    reflexivity.
Defined.

End RedisProperties.

(* ================================================================== *)
(** ** Properties of the bootstrap *)
(* ================================================================== *)

Section BootstrapProperties.
Import Express AbstractServer.

Ltac run_M :=
  unfold bind_M, when, ret, emit, register, exit, set_server, set_redis, logged;
  simpl.

Lemma start_result srv s :
  start srv s
  = Done tt {| this_server := this_server s;
               app := app s ++ start_layers srv;
               redis := redis s;
               log := log s ++ start_events srv |}.
Proof.
  unfold start, start_events, start_layers, early_layers, setupErrorHandlers, setupPushServer,
    setupCommonMiddlewares, setupDevMiddlewares, configure.
  destruct (inTest srv), (webhooksEnabled srv), (testWebhooksEnabled srv),
    (inDevelopment srv), (String.eqb (defaultLocale srv) "en");
    run_M; repeat rewrite <- app_assoc; simpl; reflexivity.
Qed.

Lemma setupHealthCheck_result srv s :
  setupHealthCheck srv s
  = Done tt {| this_server := this_server s;
               app := app s ++ [healthRoute; gateLayer];
               redis := if String.eqb (executions_mode srv) "queue"
                        then Some (redisClient srv) else redis s;
               log := log s ++ health_events srv |}.
Proof.
  unfold setupHealthCheck, setupRedisChecks, health_events.
  destruct (String.eqb (executions_mode srv) "queue");
    run_M; repeat rewrite <- app_assoc; reflexivity.
Qed.

Lemma createServer_result srv w s :
  createServer srv w s
  = if String.eqb (protocol srv) "https" && truthy (sslKey srv) && truthy (sslCert srv)
    then match readFile w (sslKey srv) with
         | None => Thrown s
         | Some key =>
             match readFile w (sslCert srv) with
             | None => Thrown (logged s [FileRead (sslKey srv)])
             | Some cert =>
                 if tls_usable w key cert then
                   Done tt {| this_server := Some (HttpsServer key cert);
                              app := app s; redis := redis s;
                              log := log s ++ [FileRead (sslKey srv);
                                               FileRead (sslCert srv);
                                               ServerCreated (HttpsServer key cert)] |}
                 else Thrown (logged s [FileRead (sslKey srv);
                                        FileRead (sslCert srv)])
             end
         end
    else Done tt {| this_server := Some HttpServer; app := app s; redis := redis s;
                    log := log s ++ [ServerCreated HttpServer] |}.
Proof.
  unfold createServer.
  destruct (String.eqb (protocol srv) "https" && truthy (sslKey srv)
            && truthy (sslCert srv)); [| reflexivity].
  unfold bind_M, read, create_https, set_server, logged.
  destruct (readFile w (sslKey srv)) as [key |]; [| reflexivity]. simpl.
  destruct (readFile w (sslCert srv)) as [cert |]; [| reflexivity]. simpl.
  destruct (tls_usable w key cert); simpl; repeat rewrite <- app_assoc;
    reflexivity.
Qed.

(** [createServer] touches neither the router stack nor the listener's
    accept state. *)
Lemma createServer_done srv w s s1 :
  createServer srv w s = Done tt s1 ->
  app s1 = app s
  /\ exists evs, log s1 = log s ++ evs
                 /\ forallb (fun e => negb (is_listening e)
                                      && negb (is_route_registration e)) evs = true.
Proof.
  rewrite createServer_result.
  destruct (_ && _).
  - destruct (readFile w (sslKey srv)) as [key |]; [| discriminate].
    destruct (readFile w (sslCert srv)) as [cert |]; [| discriminate].
    destruct (tls_usable w key cert); [| discriminate].
    intros H; injection H as <-. simpl. split; [reflexivity |].
    eexists; split; reflexivity.
  - intros H; injection H as <-. simpl. split; [reflexivity |].
    eexists; split; reflexivity.
Qed.

Lemma init_bound srv w s s1 :
  createServer srv w s = Done tt s1 ->
  bind w = Bound ->
  init srv w s
  = Done tt {| this_server := this_server s1;
               app := app s1 ++ [healthRoute; gateLayer];
               redis := if String.eqb (executions_mode srv) "queue"
                        then Some (redisClient srv) else redis s1;
               log := log s1
                      ++ [ListenCalled (port srv) (listen_address srv); Listening]
                      ++ health_events srv
                      ++ [ConsoleLog Version;
                          ConsoleLog (Ready (listen_address srv) (port srv))] |}.
Proof.
  intros Hcreate Hbind. unfold init, bind_M at 1. rewrite Hcreate.
  unfold listen, bind_M at 1. unfold bind_M at 1. rewrite Hbind.
  unfold bind_M at 1. simpl emit at 1. unfold emit at 1 2.
  unfold bind_M at 1. rewrite setupHealthCheck_result.
  run_M. repeat rewrite <- app_assoc. reflexivity.
Qed.

Lemma init_bind_error srv w s s1 code :
  createServer srv w s = Done tt s1 ->
  bind w = BindError code ->
  init srv w s
  = if String.eqb code "EADDRINUSE"
    then Exited 1 (logged s1 [ListenCalled (port srv) (listen_address srv);
                              ServerError code;
                              ConsoleLog (PortInUse (port srv));
                              ProcessExit 1])
    else Pending (logged s1 [ListenCalled (port srv) (listen_address srv);
                             ServerError code]).
Proof.
  intros Hcreate Hbind. unfold init, bind_M at 1. rewrite Hcreate.
  unfold listen, onServerError. rewrite Hbind.
  destruct (String.eqb code "EADDRINUSE");
    run_M; repeat rewrite <- app_assoc; reflexivity.
Qed.

Lemma init_not_created srv w s :
  (forall s1, createServer srv w s <> Done tt s1) ->
  forall s2, init srv w s <> Done tt s2.
Proof.
  intros Hnot s2. unfold init, bind_M at 1.
  destruct (createServer srv w s) as [[] s1 | | |]; try discriminate.
  exfalso. apply (Hnot s1). reflexivity.
Qed.

Lemma init_done_inv srv w s0 s :
  init srv w s0 = Done tt s ->
  exists s1,
    createServer srv w s0 = Done tt s1
    /\ bind w = Bound
    /\ app s = app s1 ++ [healthRoute; gateLayer]
    /\ this_server s = this_server s1
    /\ log s = log s1
               ++ [ListenCalled (port srv) (listen_address srv); Listening]
               ++ health_events srv
               ++ [ConsoleLog Version;
                   ConsoleLog (Ready (listen_address srv) (port srv))].
Proof.
  intros Hinit.
  destruct (createServer srv w s0) as [[] s1 | c s1 | s1 | s1] eqn:Hcreate;
    try (exfalso; revert Hinit; apply init_not_created;
         intros s2; rewrite Hcreate; discriminate).
  exists s1. split; [reflexivity |].
  destruct (bind w) as [| code] eqn:Hbind.
  - rewrite (init_bound srv w s0 s1 Hcreate Hbind) in Hinit.
    injection Hinit as <-. simpl. repeat split; reflexivity.
  - rewrite (init_bind_error srv w s0 s1 code Hcreate Hbind) in Hinit.
    destruct (String.eqb code "EADDRINUSE"); discriminate.
Qed.

Lemma init_app srv w s :
  init srv w fresh = Done tt s -> app s = [healthRoute; gateLayer].
Proof.
  intros Hinit.
  destruct (init_done_inv srv w fresh s Hinit) as (s1 & Hcreate & _ & Happ & _).
  destruct (createServer_done srv w fresh s1 Hcreate) as [Hs1 _].
  rewrite Happ, Hs1. reflexivity.
Qed.

(** C6.  Once [init] has returned, a GET request for /healthz is answered
    by the health route with the static body [{ status: 'ok' }] and status
    200, for every state of the storage connection (in particular when it is
    not connected) and whatever is registered afterwards: the route stands
    ahead of the gate in the stack. *)
Theorem healthz_always_ok :
  forall srv w s,
    init srv w fresh = Done tt s ->
    forall cs rest r,
      req_method r = GET ->
      req_path r = ["healthz"] ->
      dispatch cs (app s ++ rest) r = Sent 200 (Json [("status", "ok")])
      /\ exists later, app s = healthRoute :: gateLayer :: later.
Proof.
  intros srv w s Hinit cs rest r Hmethod Hpath.
  rewrite (init_app srv w s Hinit). split.
  - simpl. unfold layer_matches. rewrite Hmethod, Hpath. reflexivity.
  - exists []. reflexivity.
Qed.

Lemma healthz_always_ok_witness :
  exists s,
    init Samples.defaults Samples.calm fresh = Done tt s
    /\ dispatch Samples.disconnected (app s ++ []) (Request GET ["healthz"] false)
       = Sent 200 (Json [("status", "ok")]).
Proof.
  eexists. split.
  - vm_compute. reflexivity.
  - apply (healthz_always_ok Samples.defaults Samples.calm _ eq_refl
             Samples.disconnected [] (Request GET ["healthz"] false));
      reflexivity.
Defined.

(** C4.  Once [init] has returned, every request the health route does not
    take reaches the gate, whatever is registered afterwards: with the
    storage connected but not yet migrated the gate answers with the text
    'n8n is starting up. Please wait' (a plain [res.send], no error); with
    the storage not connected it answers through [sendErrorResponse] with a
    [ServiceUnavailableError]; and the two answers differ. *)
Theorem gate_starting_up_or_unavailable :
  forall srv w s,
    init srv w fresh = Done tt s ->
    forall rest r,
      layer_matches healthRoute r = false ->
      dispatch (ConnectionState true false) (app s ++ rest) r
      = Sent 200 (Text "n8n is starting up. Please wait")
      /\ (forall m,
             dispatch (ConnectionState false m) (app s ++ rest) r
             = sendErrorResponse (ServiceUnavailableError "Database is not ready!")
             /\ dispatch (ConnectionState true false) (app s ++ rest) r
                <> dispatch (ConnectionState false m) (app s ++ rest) r).
Proof.
  intros srv w s Hinit rest r Hhealth.
  rewrite (init_app srv w s Hinit). simpl.
  rewrite Hhealth. unfold layer_matches. simpl.
  split; [reflexivity |].
  intros m. repeat split. discriminate.
Qed.

Lemma gate_starting_up_or_unavailable_witness :
  exists s,
    init Samples.defaults Samples.calm fresh = Done tt s
    /\ dispatch Samples.migrating (app s ++ []) (Request POST ["rest"; "login"] false)
       = Sent 200 (Text "n8n is starting up. Please wait").
Proof.
  eexists. split.
  - vm_compute. reflexivity.
  - apply (gate_starting_up_or_unavailable Samples.defaults Samples.calm _ eq_refl
             [] (Request POST ["rest"; "login"] false)).
    reflexivity.
Defined.

(** C7.  Whatever the configuration: when the listener has been built and
    the bind fails with EADDRINUSE, [init] prints the port-in-use message and
    the process exits with code 1.  [listen] has been called once, nothing
    has been registered, and nothing happens after the exit. *)
Theorem port_in_use_exits :
  forall srv w s s1,
    createServer srv w s = Done tt s1 ->
    bind w = BindError "EADDRINUSE" ->
    init srv w s
    = Exited 1 (logged s1 [ListenCalled (port srv) (listen_address srv);
                           ServerError "EADDRINUSE";
                           ConsoleLog (PortInUse (port srv));
                           ProcessExit 1])
    /\ app s1 = app s.
Proof.
  intros srv w s s1 Hcreate Hbind.
  rewrite (init_bind_error srv w s s1 "EADDRINUSE" Hcreate Hbind). simpl.
  split; [reflexivity |].
  apply (createServer_done srv w s s1 Hcreate).
Qed.

Lemma port_in_use_exits_witness :
  init Samples.defaults Samples.port_taken fresh
  = Exited 1 {| this_server := Some HttpServer; app := []; redis := None;
                log := [ServerCreated HttpServer;
                        ListenCalled 5678 "0.0.0.0";
                        ServerError "EADDRINUSE";
                        ConsoleLog (PortInUse 5678);
                        ProcessExit 1] |}.
Proof.
  apply (port_in_use_exits Samples.defaults Samples.port_taken fresh
           {| this_server := Some HttpServer; app := []; redis := None;
              log := [ServerCreated HttpServer] |}); reflexivity.
Defined.

Lemma truthy_empty : truthy "" = false.
Proof. reflexivity. Qed.

Lemma truthy_true s : truthy s = true <-> s <> "".
Proof.
  unfold truthy. destruct (String.eqb_spec s ""); simpl; split; intros; congruence.
Qed.

(** C10 (counterexample).  With the protocol 'https', both file names set
    and both files readable, building the listener still throws when the
    contents are no usable key and certificate: no read has failed. *)
Lemma unusable_material_is_fatal_too : ~ fatal_only_when_unreadable.
Proof.
  intros Hclaim.
  destruct (Hclaim (Samples.with_tls "https" "/etc/n8n/key.pem" "/etc/n8n/cert.pem"
                                     Samples.defaults)
                   garbled fresh)
    as (_ & _ & _ & [Hread | Hread]).
  - eexists. reflexivity.
  - discriminate Hread.
  - discriminate Hread.
Qed.

(** C10 (as amended).  [createServer] is the first statement of [init].
    With the protocol 'https' and the key or the certificate name empty it
    builds the plain HTTP server and reads no file, so [init] goes on to bind
    it (and returns when the bind succeeds); it throws exactly when the
    protocol is 'https', both names are set and either reading the key or
    the certificate fails or [https.createServer] cannot use what was read;
    it never ends the process and never hangs. *)
Theorem https_without_material_builds_http :
  forall srv w s,
    (protocol srv = "https" ->
     sslKey srv = "" \/ sslCert srv = "" ->
     createServer srv w s = Done tt (State (Some HttpServer) (app s) (redis s)
                                           (log s ++ [ServerCreated HttpServer]))
     /\ (bind w = Bound ->
         exists s', init srv w s = Done tt s' /\ this_server s' = Some HttpServer))
    /\ ((exists s', createServer srv w s = Thrown s')
        <-> protocol srv = "https" /\ sslKey srv <> "" /\ sslCert srv <> ""
            /\ (readFile w (sslKey srv) = None
                \/ readFile w (sslCert srv) = None
                \/ exists key cert,
                     readFile w (sslKey srv) = Some key
                     /\ readFile w (sslCert srv) = Some cert
                     /\ tls_usable w key cert = false))
    /\ (forall c s', createServer srv w s <> Exited c s')
    /\ (forall s', createServer srv w s <> Pending s').
Proof.
  intros srv w s.
  assert (Hplain : protocol srv = "https" ->
                   sslKey srv = "" \/ sslCert srv = "" ->
                   createServer srv w s
                   = Done tt (State (Some HttpServer) (app s) (redis s)
                                    (log s ++ [ServerCreated HttpServer]))).
  { intros Hproto Hempty. rewrite createServer_result, Hproto.
    destruct Hempty as [-> | ->]; rewrite truthy_empty; simpl;
      [| rewrite andb_false_r]; reflexivity. }
  split; [| split; [| split]].
  - intros Hproto Hempty. split; [exact (Hplain Hproto Hempty) |].
    intros Hbind. eexists. split.
    + apply (init_bound srv w s _ (Hplain Hproto Hempty) Hbind).
    + reflexivity.
  - rewrite createServer_result.
    destruct (String.eqb_spec (protocol srv) "https") as [Hproto | Hproto]; simpl.
    + destruct (truthy (sslKey srv)) eqn:Hkey; simpl.
      * destruct (truthy (sslCert srv)) eqn:Hcert; simpl.
        -- apply truthy_true in Hkey, Hcert.
           destruct (readFile w (sslKey srv)) as [key |].
           ++ destruct (readFile w (sslCert srv)) as [cert |].
              ** destruct (tls_usable w key cert) eqn:Husable.
                 --- split; [intros [s' H]; discriminate |].
                     intros (_ & _ & _ & [H | [H | (k & c & Hk & Hc & Hu)]]);
                       try discriminate.
                     injection Hk as <-. injection Hc as <-. congruence.
                 --- split; [| intros _; eexists; reflexivity].
                     intros _. repeat split; try assumption.
                     right. right. exists key, cert. repeat split. exact Husable.
              ** split; [| intros _; eexists; reflexivity].
                 intros _. repeat split; try assumption. right. left. reflexivity.
           ++ split; [| intros _; eexists; reflexivity].
              intros _. repeat split; try assumption. left. reflexivity.
        -- split; [intros [s' H]; discriminate |].
           intros (_ & _ & Hcert' & _). apply truthy_true in Hcert'. congruence.
      * split; [intros [s' H]; discriminate |].
        intros (_ & Hkey' & _). apply truthy_true in Hkey'. congruence.
    + split; [intros [s' H]; discriminate | intros [H _]; contradiction].
  - intros c s'. rewrite createServer_result.
    destruct (_ && _); [| discriminate].
    destruct (readFile w (sslKey srv)) as [key |]; [| discriminate].
    destruct (readFile w (sslCert srv)) as [cert |]; [| discriminate].
    destruct (tls_usable w key cert); discriminate.
  - intros s'. rewrite createServer_result.
    destruct (_ && _); [| discriminate].
    destruct (readFile w (sslKey srv)) as [key |]; [| discriminate].
    destruct (readFile w (sslCert srv)) as [cert |]; [| discriminate].
    destruct (tls_usable w key cert); discriminate.
Qed.

Lemma https_without_material_builds_http_witness :
  createServer (Samples.with_tls "https" "" "/etc/n8n/cert.pem" Samples.defaults)
               Samples.unreadable fresh
  = Done tt (State (Some HttpServer) [] None [ServerCreated HttpServer])
  /\ exists s',
      createServer (Samples.with_tls "https" "/etc/n8n/key.pem" "/etc/n8n/cert.pem"
                                     Samples.defaults)
                   garbled fresh = Thrown s'.
Proof.
  split.
  - apply (proj1 (https_without_material_builds_http
                    (Samples.with_tls "https" "" "/etc/n8n/cert.pem" Samples.defaults)
                    Samples.unreadable fresh)).
    + reflexivity.
    + left. reflexivity.
  - apply (proj2 (proj1 (proj2 (https_without_material_builds_http
                    (Samples.with_tls "https" "/etc/n8n/key.pem" "/etc/n8n/cert.pem"
                                      Samples.defaults)
                    garbled fresh)))).
    repeat split; try discriminate.
    right. right. eexists. eexists. repeat split.
Defined.

Lemma routes_before_listening_split before after :
  forallb (fun e => negb (is_listening e)) before = true ->
  routes_before_listening (before ++ Listening :: after)
  = forallb (fun e => negb (is_route_registration e)) after.
Proof.
  induction before as [| e before IH]; intros Hnone; simpl in *; [reflexivity |].
  apply andb_true_iff in Hnone as [He Hnone].
  destruct (is_listening e); [discriminate |]. exact (IH Hnone).
Qed.

Lemma start_events_never_listen srv :
  forallb (fun e => negb (is_listening e) && negb (is_listen_call e))
          (start_events srv) = true.
Proof.
  unfold start_events, start_layers, early_layers.
  destruct (inTest srv), (webhooksEnabled srv), (testWebhooksEnabled srv),
    (inDevelopment srv), (String.eqb (defaultLocale srv) "en"); reflexivity.
Qed.

(** C3 (counterexample).  With the default configuration, a free port and
    readable files [init] returns, and in its log the health route is
    registered after the listener has begun to accept connections. *)
Lemma health_route_registered_after_listening :
  ~ routes_complete_before_listening.
Proof.
  intros Hclaim.
  specialize (Hclaim Samples.defaults Samples.calm
                     (State (Some HttpServer) [healthRoute; gateLayer] None
                            [ServerCreated HttpServer;
                             ListenCalled 5678 "0.0.0.0";
                             Listening;
                             Registered healthRoute;
                             Registered gateLayer;
                             ConsoleLog Version;
                             ConsoleLog (Ready "0.0.0.0" 5678)])
                     eq_refl).
  discriminate Hclaim.
Qed.

(** C3 (as amended).  In every run of [init] that returns, the listener
    accepts connections first: no route is registered before the listening
    event, and the health route and the gate are registered after it.  The
    webhook routes are registered by [start], which always returns, adds its
    layers behind those already registered and never calls [listen]. *)
Theorem listening_precedes_route_registration :
  forall srv w s,
    init srv w fresh = Done tt s ->
    (exists before after,
        log s = before ++ Listening :: after
        /\ forallb (fun e => negb (is_listening e)
                             && negb (is_route_registration e)) before = true
        /\ In (Registered healthRoute) after
        /\ In (Registered gateLayer) after
        /\ routes_before_listening (log s) = false)
    /\ forall s0,
        exists s1 added,
          start srv s0 = Done tt s1
          /\ app s1 = app s0 ++ start_layers srv
          /\ log s1 = log s0 ++ added
          /\ this_server s1 = this_server s0
          /\ forallb (fun e => negb (is_listening e) && negb (is_listen_call e))
                     added = true.
Proof.
  intros srv w s Hinit. split.
  - destruct (init_done_inv srv w fresh s Hinit)
      as (s1 & Hcreate & _ & _ & _ & Hlog).
    destruct (createServer_done srv w fresh s1 Hcreate) as (_ & evs & Hevs & Hquiet).
    simpl in Hevs.
    exists (evs ++ [ListenCalled (port srv) (listen_address srv)]),
           (health_events srv
            ++ [ConsoleLog Version; ConsoleLog (Ready (listen_address srv) (port srv))]).
    assert (Hshape : log s
                     = (evs ++ [ListenCalled (port srv) (listen_address srv)])
                       ++ Listening
                          :: health_events srv
                             ++ [ConsoleLog Version;
                                 ConsoleLog (Ready (listen_address srv) (port srv))]).
    { rewrite Hlog, Hevs. rewrite <- app_assoc. reflexivity. }
    assert (Hbefore : forallb (fun e => negb (is_listening e)
                                        && negb (is_route_registration e))
                              (evs ++ [ListenCalled (port srv) (listen_address srv)])
                      = true).
    { rewrite forallb_app, Hquiet. reflexivity. }
    split; [exact Hshape |].
    split; [exact Hbefore |].
    split; [unfold health_events; simpl; auto |].
    split; [unfold health_events; simpl; auto |].
    rewrite Hshape, routes_before_listening_split.
    + unfold health_events. reflexivity.
    + rewrite forallb_forall in Hbefore. apply forallb_forall.
      intros e He. specialize (Hbefore e He).
      apply andb_true_iff in Hbefore. tauto.
  - intros s0. exists (State (this_server s0) (app s0 ++ start_layers srv)
                             (redis s0) (log s0 ++ start_events srv)),
                      (start_events srv).
    split; [apply start_result |].
    repeat split. apply start_events_never_listen.
Qed.

Lemma listening_precedes_route_registration_witness :
  exists s,
    init Samples.defaults Samples.calm fresh = Done tt s
    /\ routes_before_listening (log s) = false.
Proof.
  eexists. split.
  - vm_compute. reflexivity.
  - destruct (proj1 (listening_precedes_route_registration
                       Samples.defaults Samples.calm _ eq_refl))
      as (before & after & _ & _ & _ & _ & H).
    exact H.
Defined.





Lemma dispatch_no_webhook cs stack : forall r m seen,
  forallb (fun l => negb (is_webhook_route l)) stack = true ->
  dispatch cs stack r <> Webhook m seen.
Proof.
  induction stack as [| l stack IH]; intros r m seen Hnone; simpl; [discriminate |].
  simpl in Hnone. apply andb_true_iff in Hnone as [Hl Hnone].
  destruct (layer_matches l r); [| exact (IH r m seen Hnone)].
  unfold is_webhook_route in Hl.
  destruct (l_handler l); simpl; try discriminate; try exact (IH _ m seen Hnone).
  unfold gate. destruct (connected cs); [destruct (migrated cs) |];
    try discriminate. exact (IH r m seen Hnone).
Qed.

Lemma dispatch_webhook_unparsed cs stack : forall r m seen,
  webhooks_before_parser stack = true ->
  body_parsed r = false ->
  dispatch cs stack r = Webhook m seen ->
  body_parsed seen = false.
Proof.
  induction stack as [| l stack IH]; intros r m seen Hord Hraw Hrun;
    simpl in Hrun; [discriminate |].
  simpl in Hord.
  destruct (layer_matches l r).
  - unfold is_body_parser in Hord.
    destruct (l_handler l); simpl in Hrun; try discriminate;
      try exact (IH r m seen Hord Hraw Hrun).
    + unfold gate in Hrun.
      destruct (connected cs); [destruct (migrated cs) |]; try discriminate.
      exact (IH r m seen Hord Hraw Hrun).
    + exfalso. exact (dispatch_no_webhook cs stack _ m seen Hord Hrun).
    + injection Hrun as _ <-. exact Hraw.
  - destruct (is_body_parser l).
    + exfalso. exact (dispatch_no_webhook cs stack r m seen Hord Hrun).
    + exact (IH r m seen Hord Hraw Hrun).
Qed.

Lemma webhooks_before_parser_app pre post :
  forallb (fun l => negb (is_body_parser l)) pre = true ->
  webhooks_before_parser (pre ++ post) = webhooks_before_parser post.
Proof.
  induction pre as [| l pre IH]; intros Hpre; simpl in *; [reflexivity |].
  apply andb_true_iff in Hpre as [Hl Hpre].
  destruct (is_body_parser l); [discriminate | exact (IH Hpre)].
Qed.

(** C9.  [start] always returns.  The layers it adds end with the JSON
    parser, the only body parser among them; ahead of it stand the webhook
    routes, in the order active, waiting and, when test webhooks are enabled,
    test (followed by the route cancelling a test webhook).  So, when no body
    parser had been registered before [start], a request whose body has not
    been parsed reaches its webhook handler with the body still unparsed. *)
Theorem webhook_routes_before_body_parser :
  forall srv s,
    exists s',
      start srv s = Done tt s'
      /\ app s' = app s ++ early_layers srv ++ [jsonLayer]
      /\ filter is_webhook_route (early_layers srv)
         = (if webhooksEnabled srv then [activeRoute srv; waitingRoute srv] else [])
           ++ (if testWebhooksEnabled srv
               then [testRoute srv; cancelRoute srv] else [])
      /\ forallb (fun l => negb (is_body_parser l)) (early_layers srv) = true
      /\ is_body_parser jsonLayer = true
      /\ (forallb (fun l => negb (is_body_parser l)) (app s) = true ->
          forall cs r m seen,
            body_parsed r = false ->
            dispatch cs (app s') r = Webhook m seen ->
            body_parsed seen = false).
Proof.
  intros srv s.
  exists (State (this_server s) (app s ++ start_layers srv)
                (redis s) (log s ++ start_events srv)).
  split; [apply start_result |].
  split; [reflexivity |].
  assert (Hearly : forallb (fun l => negb (is_body_parser l)) (early_layers srv) = true).
  { unfold early_layers.
    destruct (inTest srv), (webhooksEnabled srv), (testWebhooksEnabled srv),
      (inDevelopment srv); reflexivity. }
  split.
  { unfold early_layers.
    destruct (inTest srv), (webhooksEnabled srv), (testWebhooksEnabled srv),
      (inDevelopment srv); reflexivity. }
  split; [exact Hearly |].
  split; [reflexivity |].
  intros Hbefore cs r m seen Hraw Hrun. simpl in Hrun.
  apply (dispatch_webhook_unparsed cs (app s ++ start_layers srv) r m seen);
    [| exact Hraw | exact Hrun].
  rewrite (webhooks_before_parser_app _ _ Hbefore).
  unfold start_layers.
  rewrite (webhooks_before_parser_app _ _ Hearly). reflexivity.
Qed.

Lemma webhook_routes_before_body_parser_witness :
  exists s',
    start Samples.defaults (State (Some HttpServer) [healthRoute; gateLayer] None [])
    = Done tt s'
    /\ dispatch Samples.ready (app s') (Request POST ["webhook"; "abc"] false)
       = Webhook ActiveWorkflowRunner (Request POST ["webhook"; "abc"] false).
Proof.
  destruct (webhook_routes_before_body_parser Samples.defaults
              (State (Some HttpServer) [healthRoute; gateLayer] None []))
    as (s' & Hstart & Happ & _).
  exists s'. split; [exact Hstart |].
  rewrite Happ. reflexivity.
Defined.

End BootstrapProperties.

(* ================================================================== *)
(** ** Runs of the retry strategy *)
(* ================================================================== *)

Section RetryRunProperties.
Import RetryPolicy RetryRuns.

(** X1.  The downtime counter stays within the threshold as long as the
    process runs: from counters within a non-negative threshold, a run in
    which every call returned its delay has answered every attempt and
    leaves the cumulative downtime at most the threshold. *)
Theorem retry_downtime_stays_within_threshold :
  forall limit ts w,
    0 <= limit ->
    cumulativeTimeout w <= limit ->
    Forall (fun v => v = Return 500) (fst (reconnect limit ts w)) ->
    cumulativeTimeout (snd (reconnect limit ts w)) <= limit
    /\ List.length (fst (reconnect limit ts w)) = List.length ts.
Proof.
  intros limit ts. induction ts as [| t ts IH]; intros w Hlimit Hcum Hrun.
  - simpl. split; [exact Hcum | reflexivity].
  - simpl in *.
    destruct (Z.gtb_spec (t - lastTimer w) 30000) as [Hgap | Hgap].
    + rewrite retryStrategy_reset in * by lia.
      specialize (IH (Window t 0) Hlimit).
      destruct (reconnect limit ts (Window t 0)) as [vs w'']. simpl in *.
      inversion Hrun as [| v vs' _ Hvs]; subst.
      destruct (IH Hlimit Hvs) as [Hle Hlen]. split; [exact Hle | now rewrite Hlen].
    + rewrite retryStrategy_accumulate in * by exact Hgap.
      destruct (Z.gtb_spec (cumulativeTimeout w + (t - lastTimer w)) limit)
        as [Hover | Hunder].
      * simpl in Hrun. inversion Hrun as [| v vs' Hv _]; subst. discriminate Hv.
      * specialize (IH (Window t (cumulativeTimeout w + (t - lastTimer w))) Hlimit).
        destruct (reconnect limit ts _) as [vs w'']. simpl in *.
        inversion Hrun as [| v vs' _ Hvs]; subst.
        destruct (IH Hunder Hvs) as [Hle Hlen]. split; [exact Hle | now rewrite Hlen].
Qed.

Lemma retry_downtime_stays_within_threshold_witness :
  cumulativeTimeout (snd (reconnect 10000 [1000000; 1004000; 1009000] initial)) <= 10000.
Proof.
  apply (retry_downtime_stays_within_threshold 10000 [1000000; 1004000; 1009000]
           initial).
  - lia.
  - simpl. lia.
  - vm_compute. repeat constructor.
Defined.

(** X2.  A continuous outage ends the process: when no gap between
    successive failures is longer than 30 seconds (so the counters are never
    reset) and the downtime counted so far plus the time the failures span
    exceeds the threshold, the run ends with the exit verdict, every call
    before it having returned the delay. *)
Theorem retry_continuous_outage_exits :
  forall limit ts w,
    cumulativeTimeout w <= limit ->
    gaps_at_most 30000 (lastTimer w) ts = true ->
    cumulativeTimeout w + elapsed (lastTimer w) ts > limit ->
    exists before,
      fst (reconnect limit ts w) = before ++ [Exit 1]
      /\ Forall (fun v => v = Return 500) before.
Proof.
  intros limit ts. induction ts as [| t ts IH]; intros w Hcum Hgaps Htot.
  - simpl in Htot. lia.
  - simpl in Hgaps, Htot. apply andb_true_iff in Hgaps as [Hgap Hgaps].
    apply Z.leb_le in Hgap. simpl.
    rewrite retryStrategy_accumulate by exact Hgap.
    destruct (Z.gtb_spec (cumulativeTimeout w + (t - lastTimer w)) limit)
      as [Hover | Hunder].
    + exists []. split; [reflexivity | constructor].
    + specialize (IH (Window t (cumulativeTimeout w + (t - lastTimer w)))).
      simpl in IH.
      destruct (IH Hunder Hgaps ltac:(lia)) as (before & Hrun & Hbefore).
      destruct (reconnect limit ts _) as [vs w'']. simpl in *.
      exists (Return 500 :: before). split.
      * rewrite Hrun. reflexivity.
      * constructor; [reflexivity | exact Hbefore].
Qed.

Lemma retry_continuous_outage_exits_witness :
  exists before,
    fst (reconnect 10000 [1000500; 1004500; 1009500; 1011000; 1012000]
                   (Window 1000000 0))
    = before ++ [Exit 1].
Proof.
  destruct (retry_continuous_outage_exits 10000
              [1000500; 1004500; 1009500; 1011000; 1012000] (Window 1000000 0))
    as (before & Hrun & _).
  - simpl. lia.
  - reflexivity.
  - simpl. lia.
  - exists before. exact Hrun.
Defined.

(** X3.  Failures that are each more than 30 seconds apart never end the
    process, however many there are and whatever the threshold: every call
    returns the delay and the downtime counter is 0 after each of them. *)
Theorem retry_slow_flapping_never_exits :
  forall limit ts w,
    gaps_above 30000 (lastTimer w) ts = true ->
    fst (reconnect limit ts w) = map (fun _ => Return 500) ts
    /\ (ts <> [] -> snd (reconnect limit ts w) = Window (last ts 0) 0).
Proof.
  intros limit ts. induction ts as [| t ts IH]; intros w Hgaps.
  - split; [reflexivity | intros H; contradiction].
  - simpl in Hgaps. apply andb_true_iff in Hgaps as [Hgap Hgaps].
    apply Z.ltb_lt in Hgap.
    cbn [reconnect]. rewrite retryStrategy_reset by lia.
    specialize (IH (Window t 0) Hgaps). destruct IH as [IHv IHw].
    destruct (reconnect limit ts (Window t 0)) as [vs w''] eqn:Hrun.
    simpl in IHv, IHw. split.
    + simpl. now rewrite IHv.
    + intros _. destruct ts as [| t' ts'].
      * simpl in Hrun. injection Hrun as _ <-. reflexivity.
      * simpl. simpl in IHw. apply IHw. discriminate.
Qed.

Lemma retry_slow_flapping_never_exits_witness :
  fst (reconnect 0 [1000000; 1031000; 1062000; 1093000] initial)
  = [Return 500; Return 500; Return 500; Return 500].
Proof.
  apply (retry_slow_flapping_never_exits 0 [1000000; 1031000; 1062000; 1093000]
           initial).
  reflexivity.
Defined.

(** X4.  Both comparisons are strict.  A failure exactly 30000 ms after
    the last one still belongs to the running episode and its 30000 ms are
    counted, while one millisecond more starts a new episode; and a
    cumulative downtime equal to the threshold does not end the process. *)
Theorem retry_boundaries_are_exclusive :
  forall limit w,
    snd (retryStrategy limit (lastTimer w + 30000) w)
    = Window (lastTimer w + 30000) (cumulativeTimeout w + 30000)
    /\ retryStrategy limit (lastTimer w + 30001) w
       = (Return 500, Window (lastTimer w + 30001) 0)
    /\ (forall now,
           now - lastTimer w <= 30000 ->
           cumulativeTimeout w + (now - lastTimer w) = limit ->
           fst (retryStrategy limit now w) = Return 500)
    /\ (forall now,
           now - lastTimer w <= 30000 ->
           cumulativeTimeout w + (now - lastTimer w) = limit + 1 ->
           fst (retryStrategy limit now w) = Exit 1).
Proof.
  intros limit w. repeat split.
  - rewrite retryStrategy_accumulate by lia. simpl. f_equal. lia.
  - apply retryStrategy_reset. lia.
  - intros now Hgap Heq. rewrite retryStrategy_accumulate by exact Hgap. simpl.
    destruct (Z.gtb_spec (cumulativeTimeout w + (now - lastTimer w)) limit);
      [lia | reflexivity].
  - intros now Hgap Heq. rewrite retryStrategy_accumulate by exact Hgap. simpl.
    destruct (Z.gtb_spec (cumulativeTimeout w + (now - lastTimer w)) limit);
      [reflexivity | lia].
Qed.

Lemma retry_boundaries_are_exclusive_witness :
  fst (retryStrategy 10000 1003000 (Window 1000000 7000)) = Return 500
  /\ fst (retryStrategy 10000 1003001 (Window 1000000 7000)) = Exit 1.
Proof.
  split.
  - apply (proj1 (proj2 (proj2 (retry_boundaries_are_exclusive
                                  10000 (Window 1000000 7000)))) 1003000);
      simpl; lia.
  - apply (proj2 (proj2 (proj2 (retry_boundaries_are_exclusive
                                  10000 (Window 1000000 7000)))) 1003001);
      simpl; lia.
Defined.

End RetryRunProperties.

(* ================================================================== *)
(** ** The Redis listeners *)
(* ================================================================== *)

Section RedisListenerProperties.
Import RedisListeners.

Lemma prefix_append sub : forall s,
  String.prefix sub s = true <-> exists post, s = (sub ++ post)%string.
Proof.
  induction sub as [| a sub IH]; intros s; simpl.
  - split; [intros _; exists s; reflexivity | intros _; destruct s; reflexivity].
  - destruct s as [| b s]; simpl.
    + split; [discriminate | intros [post H]; discriminate].
    + destruct (ascii_dec a b) as [-> | Hne].
      * rewrite IH. split; intros [post H]; exists post; congruence.
      * split; [discriminate | intros [post H]; congruence].
Qed.

Lemma includes_occurrence sub : forall s,
  includes s sub = true
  <-> exists pre post, s = (pre ++ sub ++ post)%string.
Proof.
  intros s. split.
  - induction s as [| c s IH]; cbn [includes]; intros H; apply orb_true_iff in H.
    + destruct H as [H | H]; [| discriminate].
      apply prefix_append in H as [post ->]. exists "", post. reflexivity.
    + destruct H as [H | H].
      * apply prefix_append in H as [post ->]. exists "", post. reflexivity.
      * destruct (IH H) as (pre & post & ->).
        exists (String c pre), post. reflexivity.
  - intros (pre & post & ->). induction pre as [| c pre IH].
    + assert (Hp : String.prefix sub (sub ++ post) = true)
        by (apply prefix_append; eexists; reflexivity).
      cbn [String.append].
      destruct (sub ++ post)%string; cbn [includes]; rewrite Hp; reflexivity.
    + cbn [String.append includes]. rewrite IH. apply orb_true_r.
Qed.

(** X5.  The 'error' listener of the Redis client writes no warning exactly
    when the text of the error contains ECONNREFUSED somewhere (in upper
    case); every other error is written as one warning that carries the
    error.  The 'close' listener always writes its one warning. *)
Theorem redis_connection_refused_is_not_logged :
  forall error,
    (onError error = []
     <-> exists pre post, error = (pre ++ "ECONNREFUSED" ++ post)%string)
    /\ (onError error <> [] ->
        onError error = [Warn "Error with Redis: " (Some error)])
    /\ onClose = [Warn "Redis unavailable - trying to reconnect..." None].
Proof.
  intros error. unfold onError.
  pose proof (includes_occurrence "ECONNREFUSED" error) as Hocc.
  destruct (includes error "ECONNREFUSED"); simpl.
  - split; [| split; [intros H; contradiction | reflexivity]].
    split; [intros _; apply Hocc; reflexivity | reflexivity].
  - split; [| split; reflexivity].
    split; [discriminate |].
    intros H. apply Hocc in H. discriminate.
Qed.

Lemma redis_connection_refused_is_not_logged_witness :
  onError "Error: connect ECONNREFUSED 127.0.0.1:6379" = []
  /\ onError "Error: connect econnrefused 127.0.0.1:6379"
     = [Warn "Error with Redis: " (Some "Error: connect econnrefused 127.0.0.1:6379")].
Proof.
  split.
  - apply (proj1 (redis_connection_refused_is_not_logged
                    "Error: connect ECONNREFUSED 127.0.0.1:6379")).
    exists "Error: connect ", " 127.0.0.1:6379". reflexivity.
  - apply (proj1 (proj2 (redis_connection_refused_is_not_logged
                    "Error: connect econnrefused 127.0.0.1:6379"))).
    discriminate.
Defined.

End RedisListenerProperties.

(* ================================================================== *)
(** ** What the application serves once [init] and [start] have run *)
(* ================================================================== *)

Section ServingProperties.
Import Express AbstractServer Observations.

#[local] Arguments seg_eqb : simpl never.

Lemma boot_app srv w s1 s2 :
  init srv w fresh = Done tt s1 ->
  start srv s1 = Done tt s2 ->
  app s2 = healthRoute :: gateLayer :: start_layers srv.
Proof.
  intros Hinit Hstart. rewrite start_result in Hstart.
  injection Hstart as <-. simpl. rewrite (init_app srv w s1 Hinit). reflexivity.
Qed.

Lemma gate_open cs rest r :
  connected cs = true ->
  migrated cs = true ->
  dispatch cs (gateLayer :: rest) r = dispatch cs rest r.
Proof.
  intros Hc Hm. simpl. unfold gate. rewrite Hc, Hm. reflexivity.
Qed.

Lemma dispatch_skip cs l rest r :
  layer_matches l r = false ->
  dispatch cs (l :: rest) r = dispatch cs rest r.
Proof.
  intros Hno. simpl. rewrite Hno. reflexivity.
Qed.

Ltac walk_stack :=
  unfold start_layers, early_layers, activeRoute, waitingRoute, testRoute,
    cancelRoute, jsonLayer;
  simpl; unfold layer_matches; simpl.

(** X6.  While the storage is not ready nothing but the health route and
    the gate answers: after [init] and [start], with the storage not
    connected or not migrated, every request gets the health answer (when it
    is a GET or HEAD for /healthz), else the starting-up text (connected),
    else the service-unavailable error; no request reaches a webhook handler
    or the handler that cancels a test webhook. *)
Theorem gate_closed_serves_only_health :
  forall srv w s1 s2 cs r,
    init srv w fresh = Done tt s1 ->
    start srv s1 = Done tt s2 ->
    connected cs && migrated cs = false ->
    dispatch cs (app s2) r
    = (if layer_matches healthRoute r then healthy
       else if connected cs then starting_up else unavailable)
    /\ (forall m seen, dispatch cs (app s2) r <> Webhook m seen)
    /\ (forall id, dispatch cs (app s2) r <> CancelTestWebhook id).
Proof.
  intros srv w s1 s2 [c m] r Hinit Hstart Hclosed.
  rewrite (boot_app srv w s1 s2 Hinit Hstart).
  assert (Hshape : dispatch (ConnectionState c m)
                            (healthRoute :: gateLayer :: start_layers srv) r
                   = (if layer_matches healthRoute r then healthy
                      else if c then starting_up else unavailable)).
  { cbn [dispatch]. destruct (layer_matches healthRoute r); [reflexivity |].
    simpl in Hclosed. unfold layer_matches. simpl. unfold gate. simpl.
    destruct c, m; try discriminate; reflexivity. }
  simpl connected. rewrite Hshape. split; [reflexivity |].
  split; intros; destruct (layer_matches healthRoute r); destruct c; discriminate.
Qed.

Lemma sample_boot srv :
  protocol srv = "http" ->
  init srv Samples.calm fresh = Done tt (after_init srv Samples.calm)
  /\ start srv (after_init srv Samples.calm)
     = Done tt (after_start srv Samples.calm).
Proof.
  intros Hproto.
  assert (Hcreate : createServer srv Samples.calm fresh
                    = Done tt (State (Some HttpServer) [] None
                                     [ServerCreated HttpServer])).
  { rewrite createServer_result, Hproto. reflexivity. }
  assert (Hinit : init srv Samples.calm fresh
                  = Done tt (after_init srv Samples.calm)).
  { unfold after_init.
    rewrite (init_bound srv Samples.calm fresh _ Hcreate eq_refl). reflexivity. }
  split; [exact Hinit |].
  unfold after_start. rewrite start_result. reflexivity.
Qed.

Lemma gate_closed_serves_only_health_witness :
  dispatch Samples.migrating (app (after_start Samples.defaults Samples.calm))
           (Request POST ["webhook"; "abc"] false)
  = starting_up.
Proof.
  apply (proj1 (gate_closed_serves_only_health Samples.defaults Samples.calm _ _
                  Samples.migrating (Request POST ["webhook"; "abc"] false)
                  (proj1 (sample_boot Samples.defaults eq_refl))
                  (proj2 (sample_boot Samples.defaults eq_refl))
                  eq_refl)).
Defined.



(** X8.  The waiting-webhook route takes one path segment and an optional
    second one.  With webhooks enabled, the storage ready and plain
    endpoints, a request of any method under the waiting endpoint (which the
    active route does not take) whose path holds no '%' reaches the handler
    of the waiting webhooks when one or two non-empty segments follow the
    endpoint, and does not reach it when three or more follow. *)
Theorem waiting_webhook_route_arity :
  forall srv w s1 s2 cs r seg,
    init srv w fresh = Done tt s1 ->
    start srv s1 = Done tt s2 ->
    Plain.plain_endpoints srv = true ->
    webhooksEnabled srv = true ->
    connected cs = true ->
    migrated cs = true ->
    layer_matches healthRoute r = false ->
    forallb Plain.percent_free (req_path r) = true ->
    seg_eqb (endpointWebhook srv) seg = false ->
    seg_eqb (endpointWebhookWaiting srv) seg = true ->
    (forall p,
        req_path r = [seg; p] -> nonempty p = true ->
        dispatch cs (app s2) r = Webhook WaitingWebhooks r)
    /\ (forall p q,
           req_path r = [seg; p; q] -> nonempty p = true -> nonempty q = true ->
           dispatch cs (app s2) r = Webhook WaitingWebhooks r)
    /\ (forall p q x more seen,
           req_path r = seg :: p :: q :: x :: more -> nonempty x = true ->
           dispatch cs (app s2) r <> Webhook WaitingWebhooks seen).
Proof.
  intros srv w s1 s2 cs r seg Hinit Hstart Hplain Hweb Hc Hm Hhealth Hfree
    Hactive Hwaiting.
  rewrite (boot_app srv w s1 s2 Hinit Hstart).
  rewrite (dispatch_skip cs _ _ r Hhealth), (gate_open cs _ r Hc Hm).
  unfold start_layers, early_layers. rewrite Hweb.
  split; [| split].
  - intros p Hpath Hp.
    destruct (inTest srv); walk_stack; rewrite Hpath; simpl;
      rewrite Hactive, Hwaiting, Hp; reflexivity.
  - intros p q Hpath Hp Hq.
    destruct (inTest srv); walk_stack; rewrite Hpath; simpl;
      rewrite Hactive, Hwaiting, Hp, Hq; simpl; rewrite ?orb_true_r; reflexivity.
  - intros p q x more seen Hpath Hx.
    assert (Hend : match_path [] (x :: more) = false).
    { simpl. destruct more; [| reflexivity].
      unfold nonempty in Hx. destruct (String.eqb x ""); [discriminate | reflexivity]. }
    destruct (inTest srv), (testWebhooksEnabled srv), (inDevelopment srv);
      walk_stack; rewrite Hpath; simpl; rewrite Hactive; simpl;
      cbn [match_path] in Hend; rewrite ?Hend, ?andb_false_r; simpl;
      repeat match goal with
             | |- context [if ?b then _ else _] => destruct b
             end; simpl; discriminate.
Qed.

Lemma waiting_webhook_route_arity_witness :
  dispatch Samples.ready (app (after_start Samples.defaults Samples.calm))
           (Request GET ["webhook-waiting"; "42"; "approve"] false)
  = Webhook WaitingWebhooks (Request GET ["webhook-waiting"; "42"; "approve"] false).
Proof.
  apply (proj1 (proj2 (waiting_webhook_route_arity Samples.defaults Samples.calm _ _
                         Samples.ready
                         (Request GET ["webhook-waiting"; "42"; "approve"] false)
                         "webhook-waiting"
                         (proj1 (sample_boot Samples.defaults eq_refl))
                         (proj2 (sample_boot Samples.defaults eq_refl))
                         eq_refl eq_refl eq_refl eq_refl eq_refl eq_refl
                         eq_refl eq_refl))
               "42" "approve"); reflexivity.
Defined.

(** X9.  The route that cancels a test webhook answers DELETE only and
    hands on the id from the path.  With test webhooks enabled, the storage
    ready and plain endpoints, a request for /<rest>/test-webhook/<id> (the
    rest endpoint being none of the three webhook endpoints, the path
    holding no '%') cancels the test webhook [id] when its method is DELETE,
    and is answered by no layer when its method is neither DELETE nor
    OPTIONS (which Express answers by itself with the methods allowed). *)
Theorem cancel_test_webhook_on_delete_only :
  forall srv w s1 s2 cs r seg tw id,
    init srv w fresh = Done tt s1 ->
    start srv s1 = Done tt s2 ->
    Plain.plain_endpoints srv = true ->
    testWebhooksEnabled srv = true ->
    connected cs = true ->
    migrated cs = true ->
    req_path r = [seg; tw; id] ->
    forallb Plain.percent_free (req_path r) = true ->
    seg_eqb (restEndpoint srv) seg = true ->
    seg_eqb "test-webhook" tw = true ->
    nonempty id = true ->
    seg_eqb (endpointWebhook srv) seg = false ->
    seg_eqb (endpointWebhookWaiting srv) seg = false ->
    seg_eqb (endpointWebhookTest srv) seg = false ->
    (req_method r = DELETE -> dispatch cs (app s2) r = CancelTestWebhook id)
    /\ (req_method r <> DELETE ->
        req_method r <> OPTIONS ->
        dispatch cs (app s2) r = NotFound).
Proof.
  intros srv w s1 s2 cs r seg tw id Hinit Hstart Hplain Htest Hc Hm Hpath Hfree
    Hrest Htw Hid Hactive Hwaiting Htestseg.
  rewrite (boot_app srv w s1 s2 Hinit Hstart).
  assert (Hhealth : layer_matches healthRoute r = false).
  { unfold layer_matches. simpl. rewrite Hpath. simpl.
    rewrite !andb_false_r. reflexivity. }
  rewrite (dispatch_skip cs _ _ r Hhealth), (gate_open cs _ r Hc Hm).
  unfold start_layers, early_layers. rewrite Htest.
  split.
  - intros Hmethod.
    destruct (inTest srv), (webhooksEnabled srv), (inDevelopment srv);
      walk_stack; rewrite Hpath, Hmethod; simpl;
      rewrite ?Hactive, ?Hwaiting, ?Htestseg, Hrest, Htw, Hid; simpl;
      reflexivity.
  - intros Hmethod _.
    destruct (inTest srv), (webhooksEnabled srv), (inDevelopment srv);
      walk_stack; rewrite Hpath; simpl;
      rewrite ?Hactive, ?Hwaiting, ?Htestseg; simpl;
      destruct (req_method r); try contradiction; reflexivity.
Qed.

Lemma cancel_test_webhook_on_delete_only_witness :
  dispatch Samples.ready (app (after_start editor Samples.calm))
           (Request DELETE ["rest"; "test-webhook"; "1234"] false)
  = CancelTestWebhook "1234".
Proof.
  apply (proj1 (cancel_test_webhook_on_delete_only editor Samples.calm _ _
                  Samples.ready
                  (Request DELETE ["rest"; "test-webhook"; "1234"] false)
                  "rest" "test-webhook" "1234"
                  (proj1 (sample_boot editor eq_refl))
                  (proj2 (sample_boot editor eq_refl))
                  eq_refl eq_refl eq_refl eq_refl eq_refl eq_refl eq_refl
                  eq_refl eq_refl eq_refl eq_refl eq_refl)).
  reflexivity.
Defined.

(** X10.  With both switches off the application serves the health route
    and nothing else: once the storage is ready, every request the health
    route does not take runs through the middlewares and ends in the
    router's not-found answer; an OPTIONS request for the path of the health
    route is left aside, Express answering it by itself with the methods
    allowed. *)
Theorem only_health_without_webhooks :
  forall srv w s1 s2 cs r,
    init srv w fresh = Done tt s1 ->
    start srv s1 = Done tt s2 ->
    webhooksEnabled srv = false ->
    testWebhooksEnabled srv = false ->
    connected cs = true ->
    migrated cs = true ->
    layer_matches healthRoute r = false ->
    (req_method r = OPTIONS -> match_path (l_route healthRoute) (req_path r) = false) ->
    dispatch cs (app s2) r = NotFound.
Proof.
  intros srv w s1 s2 cs r Hinit Hstart Hweb Htest Hc Hm Hhealth Hoptions.
  rewrite (boot_app srv w s1 s2 Hinit Hstart).
  rewrite (dispatch_skip cs _ _ r Hhealth), (gate_open cs _ r Hc Hm).
  unfold start_layers, early_layers. rewrite Hweb, Htest.
  destruct (inTest srv), (inDevelopment srv); walk_stack; reflexivity.
Qed.

Lemma only_health_without_webhooks_witness :
  dispatch Samples.ready (app (after_start bare Samples.calm))
           (Request POST ["webhook"; "abc"] false)
  = NotFound.
Proof.
  apply (only_health_without_webhooks bare Samples.calm _ _ Samples.ready
           (Request POST ["webhook"; "abc"] false)
           (proj1 (sample_boot bare eq_refl))
           (proj2 (sample_boot bare eq_refl)));
    reflexivity.
Defined.

End ServingProperties.

(* ================================================================== *)
(** ** How [init] and [start] end *)
(* ================================================================== *)

Section StartupProperties.
Import Express AbstractServer Observations.

(** X11.  A bind error other than EADDRINUSE is swallowed by the 'error'
    listener: [init] then neither returns nor ends the process (the promise
    it awaits is never settled), prints nothing and registers nothing. *)
Theorem other_bind_errors_leave_init_pending :
  forall srv w s s1 code,
    createServer srv w s = Done tt s1 ->
    bind w = BindError code ->
    code <> "EADDRINUSE" ->
    init srv w s
    = Pending (logged s1 [ListenCalled (port srv) (listen_address srv);
                          ServerError code])
    /\ app s1 = app s.
Proof.
  intros srv w s s1 code Hcreate Hbind Hcode.
  rewrite (init_bind_error srv w s s1 code Hcreate Hbind).
  destruct (String.eqb_spec code "EADDRINUSE") as [Heq | _]; [contradiction |].
  split; [reflexivity |].
  apply (createServer_done srv w s s1 Hcreate).
Qed.

Lemma other_bind_errors_leave_init_pending_witness :
  init Samples.defaults no_permission fresh
  = Pending (State (Some HttpServer) [] None
                   [ServerCreated HttpServer;
                    ListenCalled 5678 "0.0.0.0";
                    ServerError "EACCES"]).
Proof.
  apply (other_bind_errors_leave_init_pending Samples.defaults no_permission fresh
           (State (Some HttpServer) [] None [ServerCreated HttpServer]) "EACCES");
    [reflexivity | reflexivity | discriminate].
Defined.

(** X12.  With the protocol 'https' and both file names set, [init] reads
    the key first and the certificate second and, when the contents are a
    usable key and certificate, builds the HTTPS server from them; when the
    key cannot be read it throws at once, with nothing read; when only the
    certificate cannot be read it throws after the key has been read; when
    both are read and [https.createServer] cannot use them it throws after
    both reads.  In all three failures [listen] has not been called and
    nothing is registered. *)
Theorem tls_material_is_read_before_listening :
  forall srv w s,
    protocol srv = "https" ->
    sslKey srv <> "" ->
    sslCert srv <> "" ->
    (forall key cert,
        readFile w (sslKey srv) = Some key ->
        readFile w (sslCert srv) = Some cert ->
        tls_usable w key cert = true ->
        createServer srv w s
        = Done tt (State (Some (HttpsServer key cert)) (app s) (redis s)
                         (log s ++ [FileRead (sslKey srv);
                                    FileRead (sslCert srv);
                                    ServerCreated (HttpsServer key cert)])))
    /\ (readFile w (sslKey srv) = None -> init srv w s = Thrown s)
    /\ (forall key,
           readFile w (sslKey srv) = Some key ->
           readFile w (sslCert srv) = None ->
           init srv w s = Thrown (logged s [FileRead (sslKey srv)]))
    /\ (forall key cert,
           readFile w (sslKey srv) = Some key ->
           readFile w (sslCert srv) = Some cert ->
           tls_usable w key cert = false ->
           init srv w s = Thrown (logged s [FileRead (sslKey srv);
                                           FileRead (sslCert srv)])).
Proof.
  intros srv w s Hproto Hkey Hcert.
  apply truthy_true in Hkey, Hcert.
  assert (Hresult := createServer_result srv w s).
  rewrite Hproto, Hkey, Hcert in Hresult. simpl in Hresult.
  split; [| split; [| split]].
  - intros key cert Hk Hc Hu. rewrite Hresult, Hk, Hc, Hu. reflexivity.
  - intros Hk. unfold init, bind_M at 1. rewrite Hresult, Hk. reflexivity.
  - intros key Hk Hc. unfold init, bind_M at 1. rewrite Hresult, Hk, Hc. reflexivity.
  - intros key cert Hk Hc Hu. unfold init, bind_M at 1.
    rewrite Hresult, Hk, Hc, Hu. reflexivity.
Qed.

Lemma tls_material_is_read_before_listening_witness :
  init (Samples.with_tls "https" "/etc/n8n/key.pem" "/etc/n8n/cert.pem"
                         Samples.defaults) key_only fresh
  = Thrown (State None [] None [FileRead "/etc/n8n/key.pem"]).
Proof.
  apply (proj1 (proj2 (proj2 (tls_material_is_read_before_listening
                                (Samples.with_tls "https" "/etc/n8n/key.pem"
                                                  "/etc/n8n/cert.pem" Samples.defaults)
                                key_only fresh eq_refl
                                ltac:(discriminate) ltac:(discriminate))))
               "KEY"); reflexivity.
Defined.

(** X13.  The Redis client exists in queue mode only.  A run of [init]
    that returns has created the client of [setupRedisChecks] exactly when
    'executions.mode' is the string 'queue', and otherwise leaves the server
    without one; [start] never creates or replaces it. *)
Theorem redis_client_in_queue_mode_only :
  forall srv w s,
    init srv w fresh = Done tt s ->
    redis s = (if String.eqb (executions_mode srv) "queue"
               then Some (redisClient srv) else None)
    /\ existsb creates_redis (log s) = String.eqb (executions_mode srv) "queue"
    /\ (forall s0, redis (state_of (start srv s0)) = redis s0
                   /\ existsb creates_redis (start_events srv) = false).
Proof.
  intros srv w s Hinit.
  destruct (init_done_inv srv w fresh s Hinit)
    as (s1 & Hcreate & Hbind & _ & _ & Hlog).
  rewrite (init_bound srv w fresh s1 Hcreate Hbind) in Hinit.
  injection Hinit as <-. clear Hlog. simpl.
  assert (Hs1 : redis s1 = None /\ existsb creates_redis (log s1) = false).
  { rewrite createServer_result in Hcreate.
    destruct (_ && _).
    - destruct (readFile w (sslKey srv)) as [key |]; [| discriminate].
      destruct (readFile w (sslCert srv)) as [cert |]; [| discriminate].
      destruct (tls_usable w key cert); [| discriminate].
      injection Hcreate as <-. split; reflexivity.
    - injection Hcreate as <-. split; reflexivity. }
  destruct Hs1 as [Hnone Hquiet].
  split; [| split].
  - rewrite Hnone. reflexivity.
  - rewrite existsb_app, Hquiet. unfold health_events.
    destruct (String.eqb (executions_mode srv) "queue"); reflexivity.
  - intros s0. rewrite start_result. split; [reflexivity |].
    unfold start_events, start_layers, early_layers.
    destruct (inTest srv), (webhooksEnabled srv), (testWebhooksEnabled srv),
      (inDevelopment srv), (String.eqb (defaultLocale srv) "en"); reflexivity.
Qed.

Lemma redis_client_in_queue_mode_only_witness :
  redis (after_init Samples.defaults Samples.calm) = None
  /\ redis (after_init (Samples.with_queue [] Samples.defaults) Samples.calm)
     = Some (redisClient (Samples.with_queue [] Samples.defaults)).
Proof.
  split.
  - apply (proj1 (redis_client_in_queue_mode_only Samples.defaults Samples.calm _
                    (proj1 (sample_boot Samples.defaults eq_refl)))).
  - apply (proj1 (redis_client_in_queue_mode_only
                    (Samples.with_queue [] Samples.defaults) Samples.calm _
                    (proj1 (sample_boot (Samples.with_queue [] Samples.defaults)
                                        eq_refl)))).
Defined.

(** X14.  [init] is all or nothing for the application: however it ends,
    either it has returned, with the listener accepting connections and
    exactly the health route and the gate registered, or it has registered
    nothing at all and the listener accepts no connection. *)
Theorem init_registers_all_or_nothing :
  forall srv w,
    (exists s,
        init srv w fresh = Done tt s
        /\ app s = [healthRoute; gateLayer]
        /\ existsb is_listening (log s) = true)
    \/ ((forall s, init srv w fresh <> Done tt s)
        /\ app (state_of (init srv w fresh)) = []
        /\ existsb is_listening (log (state_of (init srv w fresh))) = false).
Proof.
  intros srv w.
  destruct (createServer srv w fresh) as [[] s1 | c s1 | s1 | s1] eqn:Hcreate.
  - destruct (createServer_done srv w fresh s1 Hcreate) as (Happ & evs & Hevs & Hquiet).
    assert (Hsilent : existsb is_listening (log s1) = false).
    { rewrite Hevs. simpl. clear Hevs.
      induction evs as [| e evs IH]; [reflexivity |].
      simpl in *. apply andb_true_iff in Hquiet as [He Hquiet].
      apply andb_true_iff in He as [He _].
      destruct (is_listening e); [discriminate | exact (IH Hquiet)]. }
    destruct (bind w) as [| code] eqn:Hbind.
    + left. eexists. split; [apply (init_bound srv w fresh s1 Hcreate Hbind) |].
      simpl. rewrite Happ. split; [reflexivity |].
      rewrite existsb_app. simpl. apply orb_true_r.
    + right. rewrite (init_bind_error srv w fresh s1 code Hcreate Hbind).
      destruct (String.eqb code "EADDRINUSE"); simpl;
        (split; [intros ?; discriminate |]);
        rewrite Happ, existsb_app, Hsilent; split; reflexivity.
  - exfalso. rewrite createServer_result in Hcreate.
    destruct (_ && _); [| discriminate].
    destruct (readFile w (sslKey srv)) as [key |]; [| discriminate].
    destruct (readFile w (sslCert srv)) as [cert |]; [| discriminate].
    destruct (tls_usable w key cert); discriminate.
  - right.
    assert (Hinit : init srv w fresh = Thrown s1)
      by (unfold init, bind_M at 1; rewrite Hcreate; reflexivity).
    rewrite Hinit. simpl.
    rewrite createServer_result in Hcreate.
    destruct (_ && _); [| discriminate].
    destruct (readFile w (sslKey srv)) as [key |]; [| injection Hcreate as <-].
    + destruct (readFile w (sslCert srv)) as [cert |];
        [destruct (tls_usable w key cert); [discriminate |] |];
        injection Hcreate as <-; simpl;
        (split; [intros ?; discriminate | split; reflexivity]).
    + simpl. split; [intros ?; discriminate | split; reflexivity].
  - exfalso. rewrite createServer_result in Hcreate.
    destruct (_ && _); [| discriminate].
    destruct (readFile w (sslKey srv)) as [key |]; [| discriminate].
    destruct (readFile w (sslCert srv)) as [cert |]; [| discriminate].
    destruct (tls_usable w key cert); discriminate.
Qed.

(** X15.  [start] announces readiness last.  Outside the test environment
    the 'n8n.ready' hook is run once, as the last thing [start] does, after
    every layer has been registered and the version (and a locale other than
    'en') printed; in the test environment [start] only registers its layers,
    prints nothing, runs no hook and leaves out the two Sentry handlers. *)
Theorem start_runs_ready_hook_last :
  forall srv s,
    exists s',
      start srv s = Done tt s'
      /\ (inTest srv = false ->
          exists printed,
            log s' = log s ++ map Registered (start_layers srv)
                           ++ printed ++ [HookRun "n8n.ready"]
            /\ forallb is_console printed = true
            /\ (In (ConsoleLog (Locale (defaultLocale srv))) printed
                <-> defaultLocale srv <> "en"))
      /\ (inTest srv = true ->
          log s' = log s ++ map Registered (start_layers srv)
          /\ forallb (fun l => match l_handler l with
                               | sentryRequestHandler | sentryErrorHandler => false
                               | _ => true
                               end) (start_layers srv) = true).
Proof.
  intros srv s. eexists. split; [apply start_result |]. simpl.
  unfold start_events. split; intros Htest; rewrite Htest; simpl.
  - exists (ConsoleLog Version
            :: (if negb (String.eqb (defaultLocale srv) "en")
                then [ConsoleLog (Locale (defaultLocale srv))] else [])).
    split; [reflexivity |].
    destruct (String.eqb_spec (defaultLocale srv) "en") as [Hen | Hen]; simpl.
    + split; [reflexivity |].
      split; [intros [H | []]; discriminate | intros H; contradiction].
    + split; [reflexivity |]. split; [intros _; exact Hen | intros _; auto].
  - rewrite app_nil_r. split; [reflexivity |].
    unfold start_layers, early_layers. rewrite Htest.
    destruct (webhooksEnabled srv), (testWebhooksEnabled srv), (inDevelopment srv);
      reflexivity.
Qed.

Lemma start_runs_ready_hook_last_witness :
  exists s' printed,
    start Samples.defaults (after_init Samples.defaults Samples.calm) = Done tt s'
    /\ log s'
       = log (after_init Samples.defaults Samples.calm)
         ++ map Registered (start_layers Samples.defaults)
         ++ printed ++ [HookRun "n8n.ready"].
Proof.
  destruct (start_runs_ready_hook_last Samples.defaults
              (after_init Samples.defaults Samples.calm))
    as (s' & Hstart & Hrun & _).
  destruct (Hrun eq_refl) as (printed & Hlog & _).
  exists s', printed. split; [exact Hstart | exact Hlog].
Defined.

End StartupProperties.

(* ================================================================== *)
(** ** Claiming the instance *)
(* ================================================================== *)

Section OwnerProperties.
Import OwnerController.

Lemma setupOwner_already R (c : collaborators R) body u st :
  isInstanceOwnerSetUp st = true ->
  setupOwner c body u st
  = (Threw (BadRequestError "Instance owner already setup"),
     note st [LogDebug "Request to claim instance ownership failed because instance owner already exists"],
     u).
Proof.
  intros Hset. unfold setupOwner. rewrite Hset. reflexivity.
Qed.

Ltac owner_cases c body u :=
  destruct (falsy (body_email body) || negb (isEmail c (text (body_email body))))
    eqn:Hemail;
  [| destruct (validatePassword c (body_password body)) as [e | valid] eqn:Hpw;
     [| destruct (falsy (body_firstName body) || falsy (body_lastName body))
          eqn:Hnames;
        [| destruct (String.eqb (scope (globalRole u)) "global"
                     && negb (String.eqb (name (globalRole u)) "owner")) eqn:Hrole;
           [| destruct (hashPassword c valid) as [hashed |] eqn:Hhash;
              [destruct (validateEntity c _) as [e |] eqn:Hentity;
               [| destruct (save c _) as [saved |] eqn:Hsave;
                  [destruct (updateSetting c _ _) eqn:Hupdate;
                   [destruct (issueCookie c saved) eqn:Hcookie | ] | ] ] | ] ] ] ] ].

(** X16.  The instance is claimed at most once.  A call of [setupOwner]
    that returns found the flag unset and leaves it set, and from the store
    it leaves every further call (any payload, any user, any collaborators)
    throws 'Instance owner already setup', writes one debug line and leaves
    [req.user] and the flag as they are. *)
Theorem owner_setup_happens_once :
  forall R (c : collaborators R) body u st r st' u',
    setupOwner c body u st = (Returned r, st', u') ->
    isInstanceOwnerSetUp st = false
    /\ isInstanceOwnerSetUp st' = true
    /\ forall (c2 : collaborators R) body2 u2,
        exists line,
          setupOwner c2 body2 u2 st'
          = (Threw (BadRequestError "Instance owner already setup"),
             note st' [LogDebug line], u2).
Proof.
  intros R c body u st r st' u' Hrun.
  unfold setupOwner in Hrun.
  destruct (isInstanceOwnerSetUp st) eqn:Hflag; [discriminate |].
  owner_cases c body u; try discriminate.
  injection Hrun as _ <- _.
  split; [reflexivity |]. split; [reflexivity |].
  intros c2 body2 u2. eexists. apply setupOwner_already. reflexivity.
Qed.

Lemma owner_setup_happens_once_witness :
  exists line,
    setupOwner lenient claim shell
               (snd (fst (setupOwner lenient claim shell untouched)))
    = (Threw (BadRequestError "Instance owner already setup"),
       note (snd (fst (setupOwner lenient claim shell untouched))) [LogDebug line],
       shell).
Proof.
  apply (proj2 (proj2 (owner_setup_happens_once user lenient claim shell untouched
                         _ _ _ eq_refl))).
Defined.

(** X17.  What a successful claim guarantees.  When [setupOwner] returns,
    the payload carried a non-empty e-mail address [validator.isEmail]
    accepts, a password [validatePassword] accepts and both names, and the
    user's role is the owner role or not a global one; [req.user] has been
    given the payload's e-mail address and names and the hashed password;
    that entity is the one saved; the setting and the configuration flag
    were written after the save, the cookie was issued for the saved entity
    after that, and the answer is built from the saved entity. *)
Theorem owner_setup_success_means_validated_and_saved :
  forall R (c : collaborators R) body u st r st' u',
    setupOwner c body u st = (Returned r, st', u') ->
    falsy (body_email body) = false
    /\ isEmail c (text (body_email body)) = true
    /\ falsy (body_firstName body) = false
    /\ falsy (body_lastName body) = false
    /\ (scope (globalRole u) <> "global" \/ name (globalRole u) = "owner")
    /\ exists valid hashed saved,
        validatePassword c (body_password body) = inr valid
        /\ hashPassword c valid = Some hashed
        /\ u' = {| id := id u; email := body_email body;
                   firstName := body_firstName body;
                   lastName := body_lastName body;
                   password := Some hashed; globalRole := globalRole u |}
        /\ validateEntity c u' = None
        /\ save c u' = Some saved
        /\ r = publicUser c saved
        /\ filter durable (trail st')
           = filter durable (trail st)
             ++ [Saved u';
                 SettingUpdated "userManagement.isInstanceOwnerSetUp" "true";
                 ConfigSet "userManagement.isInstanceOwnerSetUp" true;
                 CookieIssued saved;
                 OwnerSetupHook (id u)].
Proof.
  intros R c body u st r st' u' Hrun.
  unfold setupOwner in Hrun.
  destruct (isInstanceOwnerSetUp st) eqn:Hflag; [discriminate |].
  owner_cases c body u; try discriminate.
  injection Hrun as <- <- <-.
  apply orb_false_iff in Hemail as [Hfalsy Hvalid].
  apply negb_false_iff in Hvalid.
  apply orb_false_iff in Hnames as [Hfirst Hlast].
  repeat split; try assumption.
  - apply andb_false_iff in Hrole as [Hscope | Hname].
    + left. apply String.eqb_neq. exact Hscope.
    + right. apply negb_false_iff in Hname. apply String.eqb_eq. exact Hname.
  - exists valid, hashed, saved. repeat split; try assumption.
    simpl. rewrite !filter_app. simpl. rewrite <- !app_assoc. reflexivity.
Qed.

Lemma owner_setup_success_means_validated_and_saved_witness :
  isEmail lenient (text (body_email claim)) = true
  /\ falsy (body_firstName claim) = false.
Proof.
  destruct (owner_setup_success_means_validated_and_saved user lenient claim shell
              untouched _ _ _ eq_refl) as (_ & Hmail & Hfirst & _).
  split; [exact Hmail | exact Hfirst].
Defined.

(** X18.  The checks run in a fixed order and a refusal touches nothing.
    The first failing one of: the flag already set, the e-mail address
    missing or not accepted, the password not accepted, a name missing, a
    global role other than owner, decides the error; the call then leaves
    [req.user] and the flag as they were, adds at most a debug line to the
    trail, and none of hashing, saving, settings and cookie is reached. *)
Theorem owner_setup_checks_in_order :
  forall R (c : collaborators R) body u st,
    isInstanceOwnerSetUp st = false ->
    (falsy (body_email body) = true \/ isEmail c (text (body_email body)) = false ->
     exists line,
       setupOwner c body u st
       = (Threw (BadRequestError "Invalid email address"), note st [LogDebug line], u))
    /\ (falsy (body_email body) = false ->
        isEmail c (text (body_email body)) = true ->
        (forall e,
            validatePassword c (body_password body) = inl e ->
            setupOwner c body u st = (Threw e, st, u))
        /\ (forall valid,
               validatePassword c (body_password body) = inr valid ->
               (falsy (body_firstName body) = true \/ falsy (body_lastName body) = true ->
                exists line,
                  setupOwner c body u st
                  = (Threw (BadRequestError "First and last names are mandatory"),
                     note st [LogDebug line], u))
               /\ (falsy (body_firstName body) = false ->
                   falsy (body_lastName body) = false ->
                   scope (globalRole u) = "global" ->
                   name (globalRole u) <> "owner" ->
                   exists line,
                     setupOwner c body u st
                     = (Threw (BadRequestError "Invalid request"),
                        note st [LogDebug line], u)))).
Proof.
  intros R c body u st Hflag. unfold setupOwner. rewrite Hflag. split.
  - intros Hbad.
    assert (Hemail : falsy (body_email body)
                     || negb (isEmail c (text (body_email body))) = true).
    { destruct Hbad as [-> | ->]; [reflexivity | apply orb_true_r]. }
    rewrite Hemail. eexists. reflexivity.
  - intros Hfalsy Hmail. rewrite Hfalsy, Hmail. simpl. split.
    + intros e Hpw. rewrite Hpw. reflexivity.
    + intros valid Hpw. rewrite Hpw. split.
      * intros Hnames.
        assert (Hn : falsy (body_firstName body) || falsy (body_lastName body) = true).
        { destruct Hnames as [-> | ->]; [reflexivity | apply orb_true_r]. }
        rewrite Hn. eexists. reflexivity.
      * intros Hfirst Hlast Hscope Hname. rewrite Hfirst, Hlast, Hscope. simpl.
        apply String.eqb_neq in Hname. rewrite Hname. simpl.
        eexists. reflexivity.
Qed.

Lemma owner_setup_checks_in_order_witness :
  exists line,
    setupOwner lenient
               {| body_email := Some "ada"; body_firstName := None;
                  body_lastName := None; body_password := None |}
               shell untouched
    = (Threw (BadRequestError "Invalid email address"),
       note untouched [LogDebug line], shell).
Proof.
  apply (proj1 (owner_setup_checks_in_order user lenient
                  {| body_email := Some "ada"; body_firstName := None;
                     body_lastName := None; body_password := None |}
                  shell untouched eq_refl)).
  right. reflexivity.
Defined.

(** X19.  Nothing is rolled back.  When every check passes and the
    password is hashed: a refusal of [validateEntity] or of the save leaves
    the store as it was but [req.user] already rewritten with the payload;
    a refusal of the settings update leaves the entity saved and the flag
    unset; a refusal to issue the cookie makes the call throw although the
    entity is saved and the flag is set, so that a second attempt is
    refused. *)
Theorem owner_setup_is_not_rolled_back :
  forall R (c : collaborators R) body u st valid hashed,
    isInstanceOwnerSetUp st = false ->
    falsy (body_email body) = false ->
    isEmail c (text (body_email body)) = true ->
    validatePassword c (body_password body) = inr valid ->
    falsy (body_firstName body) = false ->
    falsy (body_lastName body) = false ->
    (scope (globalRole u) <> "global" \/ name (globalRole u) = "owner") ->
    hashPassword c valid = Some hashed ->
    let owner := {| id := id u; email := body_email body;
                    firstName := body_firstName body;
                    lastName := body_lastName body;
                    password := Some hashed; globalRole := globalRole u |} in
    (forall e, validateEntity c owner = Some e ->
               setupOwner c body u st = (Threw e, st, owner))
    /\ (validateEntity c owner = None ->
        (save c owner = None ->
         setupOwner c body u st = (Threw (Rejection "userService.save"), st, owner))
        /\ forall saved,
            save c owner = Some saved ->
            (updateSetting c "userManagement.isInstanceOwnerSetUp" "true" = false ->
             exists st',
               setupOwner c body u st
               = (Threw (Rejection "settingsRepository.update"), st', owner)
               /\ isInstanceOwnerSetUp st' = false
               /\ filter durable (trail st')
                  = filter durable (trail st) ++ [Saved owner])
            /\ (updateSetting c "userManagement.isInstanceOwnerSetUp" "true" = true ->
                issueCookie c saved = false ->
                exists st',
                  setupOwner c body u st = (Threw (Rejection "issueCookie"), st', owner)
                  /\ isInstanceOwnerSetUp st' = true
                  /\ filter durable (trail st')
                     = filter durable (trail st)
                       ++ [Saved owner;
                           SettingUpdated "userManagement.isInstanceOwnerSetUp" "true";
                           ConfigSet "userManagement.isInstanceOwnerSetUp" true])).
Proof.
  intros R c body u st valid hashed Hflag Hfalsy Hmail Hpw Hfirst Hlast Hrole Hhash
    owner.
  assert (Hr : String.eqb (scope (globalRole u)) "global"
               && negb (String.eqb (name (globalRole u)) "owner") = false).
  { destruct Hrole as [Hscope | Hname].
    - apply String.eqb_neq in Hscope. rewrite Hscope. reflexivity.
    - rewrite Hname. simpl. apply andb_false_r. }
  unfold setupOwner.
  rewrite Hflag, Hfalsy, Hmail, Hpw, Hfirst, Hlast, Hr, Hhash. simpl.
  fold owner. split.
  - intros e He. rewrite He. reflexivity.
  - intros Hentity. rewrite Hentity. split.
    + intros Hsave. rewrite Hsave. reflexivity.
    + intros saved Hsave. rewrite Hsave. split.
      * intros Hupdate. rewrite Hupdate. eexists. split; [reflexivity |].
        split; [exact Hflag |]. simpl. rewrite filter_app. reflexivity.
      * intros Hupdate Hcookie. rewrite Hupdate, Hcookie.
        eexists. split; [reflexivity |]. split; [reflexivity |].
        simpl. rewrite !filter_app. simpl. rewrite <- app_assoc. reflexivity.
Qed.

Lemma owner_setup_is_not_rolled_back_witness :
  exists st',
    setupOwner cookieless claim shell untouched
    = (Threw (Rejection "issueCookie"), st',
       {| id := "1"; email := Some "ada@example.com"; firstName := Some "Ada";
          lastName := Some "Lovelace"; password := Some "#Analytical1";
          globalRole := {| scope := "global"; name := "owner" |} |})
    /\ isInstanceOwnerSetUp st' = true.
Proof.
  destruct (proj2 (proj2 (owner_setup_is_not_rolled_back user cookieless claim shell
                            untouched "Analytical1" "#Analytical1"
                            eq_refl eq_refl eq_refl eq_refl eq_refl eq_refl
                            (or_intror eq_refl) eq_refl)
                         eq_refl)
                  _ eq_refl)
    as [_ Hcookie].
  destruct (Hcookie eq_refl eq_refl) as (st' & Hrun & Hflag & _).
  exists st'. split; [exact Hrun | exact Hflag].
Defined.

End OwnerProperties.

(* ================================================================== *)
(** ** Endpoints added to a node *)
(* ================================================================== *)

Section NodeBaseProperties.
Import NodeBase.
Context {A O : Type}.
Variable h : helpers A O.
Variable nodeId : string.

Lemma own_assign d : forall k v k',
  own (assign d k v) k' = if String.eqb k k' then Some v else own d k'.
Proof.
  induction d as [| [k0 v0] d IH]; intros k v k'; simpl.
  - reflexivity.
  - destruct (String.eqb_spec k0 k) as [-> | Hne]; simpl.
    + destruct (String.eqb k k'); reflexivity.
    + rewrite IH.
      destruct (String.eqb_spec k0 k') as [-> | Hne'].
      * destruct (String.eqb_spec k k'); [congruence | reflexivity].
      * reflexivity.
Qed.

Lemma tracks_nil : tracks [] [].
Proof. intros k. reflexivity. Qed.

Lemma tracks_unseen d seen k :
  tracks d seen -> ~ In k seen -> own d k = None.
Proof.
  intros Ht Hk. rewrite Ht.
  rewrite (proj1 (count_occ_not_In string_dec seen k) Hk). reflexivity.
Qed.

Lemma ordinary_unseen seen :
  Forall ordinary seen -> ~ In "hasOwnProperty" seen.
Proof.
  intros Hall Hin. rewrite Forall_forall in Hall.
  destruct (Hall _ Hin) as [Hne _]. apply Hne. reflexivity.
Qed.

Lemma nextIndex_ordinary d seen x :
  tracks d seen ->
  Forall ordinary seen ->
  ordinary x ->
  exists d',
    nextIndex d x = Some (d', Num (count_occ string_dec seen x))
    /\ tracks d' (x :: seen).
Proof.
  intros Ht Hseen [Hx1 Hx2]. unfold nextIndex.
  rewrite (tracks_unseen d seen _ Ht (ordinary_unseen seen Hseen)).
  apply String.eqb_neq in Hx2. rewrite Hx2.
  pose proof (Ht x) as Hown.
  destruct (count_occ string_dec seen x) as [| n] eqn:Hcount; rewrite Hown.
  - eexists. split; [reflexivity |].
    intros k. rewrite own_assign. simpl.
    destruct (string_dec x k) as [-> | Hne].
    + rewrite String.eqb_refl, Hcount. reflexivity.
    + apply String.eqb_neq in Hne. rewrite Hne. apply Ht.
  - eexists. split; [reflexivity |].
    intros k. rewrite own_assign. simpl.
    destruct (string_dec x k) as [-> | Hne].
    + rewrite String.eqb_refl, Hcount. reflexivity.
    + apply String.eqb_neq in Hne. rewrite Hne. apply Ht.
Qed.

(** The loop over a stretch of ordinary names, with whatever follows left
    to do. *)
Lemma addInputs_ordinary ro total row :
  ANCHOR_POSITIONS_input h total = Some row ->
  (forall o, addEndpoint h o = true) ->
  forall names rest d seen instance,
    tracks d seen ->
    Forall ordinary seen ->
    Forall ordinary names ->
    exists added d',
      addInputs h nodeId ro total (names ++ rest) d instance
      = addInputs h nodeId ro total rest d' (instance ++ added)
      /\ tracks d' (rev names ++ seen)
      /\ map type_and_index added = numbered seen names
      /\ Forall (fun o => enabled o = negb ro
                          /\ source o = false /\ target o = true
                          /\ uuid o = getInputEndpointUUID h nodeId
                                        (snd (type_and_index o))
                          /\ anchor o = at_index row (snd (type_and_index o)))
                added.
Proof.
  intros Hrow Hok names.
  induction names as [| x names IH]; intros rest d seen instance Ht Hseen Hnames.
  - exists [], d. rewrite app_nil_r. repeat split; [exact Ht | constructor].
  - inversion Hnames as [| x' names' Hx Hrest]; subst.
    destruct (nextIndex_ordinary d seen x Ht Hseen Hx) as (d1 & Hnext & Ht1).
    cbn [app addInputs]. rewrite Hnext, Hrow. cbv zeta. rewrite Hok.
    match goal with
    | |- context [addInputs _ _ _ _ _ _ (instance ++ [?e])] =>
        destruct (IH rest d1 (x :: seen) (instance ++ [e]) Ht1
                     (Forall_cons _ Hx Hseen) Hrest)
          as (added & d' & Hrun & Ht' & Hmap & Hall);
        exists (e :: added), d'
    end.
    split; [| split; [| split]].
    + rewrite Hrun. rewrite <- app_assoc. reflexivity.
    + simpl. rewrite <- app_assoc. exact Ht'.
    + simpl. rewrite Hmap. reflexivity.
    + constructor; [| exact Hall]. repeat split.
Qed.

Lemma numbered_first seen names x :
  In x names -> ~ In x seen -> In (x, Num 0) (numbered seen names).
Proof.
  revert seen. induction names as [| y names IH]; intros seen Hin Hseen.
  - contradiction.
  - simpl. destruct (string_dec y x) as [-> | Hne].
    + left. rewrite (proj1 (count_occ_not_In string_dec seen x) Hseen). reflexivity.
    + right. apply IH.
      * destruct Hin as [Heq | Hin]; [contradiction | exact Hin].
      * intros [Heq | Hin']; [contradiction | apply Hseen; exact Hin'].
Qed.

(** X20.  Input endpoints are numbered per name.  For input names that are
    no special property name, with an anchor row for the number of inputs
    and an instance that takes every endpoint, [__addInputEndpoints] adds one
    endpoint per input, in order, behind those the instance has; the index
    in its parameters, in its UUID and in its anchor is the number of earlier
    inputs of the same name; every endpoint is a target, no source, and
    enabled exactly when the canvas is not read-only. *)
Theorem input_endpoints_are_numbered_per_name :
  forall ro inputs instance row,
    Forall ordinary inputs ->
    ANCHOR_POSITIONS_input h (List.length inputs) = Some row ->
    (forall o, addEndpoint h o = true) ->
    exists added,
      __addInputEndpoints h nodeId ro inputs instance = (instance ++ added, true)
      /\ map type_and_index added = numbered [] inputs
      /\ List.length added = List.length inputs
      /\ Forall (fun o => enabled o = negb ro
                          /\ source o = false /\ target o = true
                          /\ uuid o = getInputEndpointUUID h nodeId
                                        (snd (type_and_index o))
                          /\ anchor o = at_index row (snd (type_and_index o)))
                added.
Proof.
  intros ro inputs instance row Hnames Hrow Hok.
  destruct (addInputs_ordinary ro (List.length inputs) row Hrow Hok inputs [] [] []
              instance tracks_nil (Forall_nil _) Hnames)
    as (added & d' & Hrun & _ & Hmap & Hall).
  exists added. unfold __addInputEndpoints.
  rewrite app_nil_r in Hrun. rewrite Hrun. simpl.
  split; [reflexivity |]. split; [exact Hmap |]. split; [| exact Hall].
  rewrite <- (length_map type_and_index), Hmap.
  clear. generalize (@nil string).
  induction inputs as [| x inputs IH]; intros seen; simpl; [reflexivity |].
  now rewrite IH.
Qed.

(** X21.  The UUID of an input endpoint is made from the node and the index
    alone, and the index starts at 0 for every name: when a node has inputs
    of two different names, the first endpoint of the one and the first
    endpoint of the other are two endpoints with the same UUID. *)
Theorem inputs_of_different_names_share_a_uuid :
  forall ro inputs instance row a b,
    Forall ordinary inputs ->
    ANCHOR_POSITIONS_input h (List.length inputs) = Some row ->
    (forall o, addEndpoint h o = true) ->
    In a inputs ->
    In b inputs ->
    a <> b ->
    exists added o1 o2,
      __addInputEndpoints h nodeId ro inputs instance = (instance ++ added, true)
      /\ In o1 added /\ In o2 added
      /\ type_and_index o1 = (a, Num 0)
      /\ type_and_index o2 = (b, Num 0)
      /\ o1 <> o2
      /\ uuid o1 = uuid o2.
Proof.
  intros ro inputs instance row a b Hnames Hrow Hok Ha Hb Hab.
  destruct (addInputs_ordinary ro (List.length inputs) row Hrow Hok inputs [] [] []
              instance tracks_nil (Forall_nil _) Hnames)
    as (added & d' & Hrun & _ & Hmap & Hall).
  rewrite app_nil_r in Hrun.
  assert (Hfirst : forall x, In x inputs ->
                             exists o, In o added /\ type_and_index o = (x, Num 0)).
  { intros x Hx.
    pose proof (numbered_first [] inputs x Hx (fun F => F)) as Hin.
    rewrite <- Hmap in Hin. apply in_map_iff in Hin as (o & Ho & Hino).
    exists o. split; assumption. }
  destruct (Hfirst a Ha) as (o1 & Hin1 & Ho1).
  destruct (Hfirst b Hb) as (o2 & Hin2 & Ho2).
  exists added, o1, o2. unfold __addInputEndpoints. rewrite Hrun.
  repeat split; try assumption.
  - intros Heq. subst o2. rewrite Ho1 in Ho2. congruence.
  - rewrite Forall_forall in Hall.
    destruct (Hall o1 Hin1) as (_ & _ & _ & Hu1 & _).
    destruct (Hall o2 Hin2) as (_ & _ & _ & Hu2 & _).
    rewrite Hu1, Hu2, Ho1, Ho2. reflexivity.
Qed.

(** X22.  An input named 'hasOwnProperty' ends the loop.  Its own endpoint
    is still added, with index 0, but the count it stores takes the place of
    the method the next round calls: with any input behind it the loop is
    left by an exception, and the node keeps the endpoints of the inputs up
    to and including that one only. *)
Theorem input_named_hasOwnProperty_stops_the_loop :
  forall ro before next behind instance row,
    Forall ordinary before ->
    ANCHOR_POSITIONS_input h
      (List.length (before ++ "hasOwnProperty" :: next :: behind)) = Some row ->
    (forall o, addEndpoint h o = true) ->
    exists added,
      __addInputEndpoints h nodeId ro
        (before ++ "hasOwnProperty" :: next :: behind) instance
      = (instance ++ added, false)
      /\ map type_and_index added
         = numbered [] before ++ [("hasOwnProperty", Num 0)].
Proof.
  intros ro before next behind instance row Hnames Hrow Hok.
  destruct (addInputs_ordinary ro _ row Hrow Hok before
              ("hasOwnProperty" :: next :: behind) [] [] instance
              tracks_nil (Forall_nil _) Hnames)
    as (added & d' & Hrun & Ht & Hmap & _).
  unfold __addInputEndpoints. rewrite Hrun. clear Hrun.
  rewrite app_nil_r in Ht.
  assert (Hunseen : own d' "hasOwnProperty" = None).
  { apply (tracks_unseen d' (rev before) _ Ht).
    intros Hin. apply in_rev in Hin.
    apply (ordinary_unseen before Hnames Hin). }
  cbn [addInputs]. unfold nextIndex at 1. rewrite Hunseen. simpl String.eqb.
  cbv iota. rewrite Hrow. cbv zeta. rewrite Hok.
  unfold nextIndex at 1. rewrite own_assign. simpl String.eqb. cbv iota.
  eexists. split.
  - rewrite <- app_assoc. reflexivity.
  - rewrite map_app, Hmap. reflexivity.
Qed.

Lemma addOutputs_read_only name outputNames total :
  forall outputs i d instance,
    fst (addOutputs h nodeId true name outputNames total i outputs d instance)
    = instance.
Proof.
  induction outputs as [| x outputs IH]; intros i d instance; simpl.
  - reflexivity.
  - destruct (nextIndex d x) as [[d' index] |]; [| reflexivity].
    destruct (ANCHOR_POSITIONS_output h total); [| reflexivity].
    apply IH.
Qed.

Lemma addInputs_appends ro total :
  forall inputs d instance,
    exists added,
      fst (addInputs h nodeId ro total inputs d instance) = instance ++ added
      /\ Forall (fun o => enabled o = negb ro) added
      /\ (List.length added <= List.length inputs)%nat.
Proof.
  induction inputs as [| x inputs IH]; intros d instance; simpl.
  - exists []. rewrite app_nil_r. repeat split; [constructor | apply le_n].
  - assert (Hnone : exists added : list (EndpointOptions A O),
               instance = instance ++ added
               /\ Forall (fun o => enabled o = negb ro) added
               /\ (List.length added <= S (List.length inputs))%nat).
    { exists []. rewrite app_nil_r. repeat split; [constructor | apply Nat.le_0_l]. }
    destruct (nextIndex d x) as [[d' index] |]; [| exact Hnone].
    destruct (ANCHOR_POSITIONS_input h total) as [row |]; [| exact Hnone].
    match goal with
    | |- context [addEndpoint h ?e] =>
        destruct (addEndpoint h e); [| exact Hnone];
        destruct (IH d' (instance ++ [e])) as (added & Hrun & Hall & Hlen);
        exists (e :: added)
    end.
    rewrite Hrun, <- app_assoc. split; [reflexivity |].
    split; [constructor; [reflexivity | exact Hall] | simpl; apply le_n_S, Hlen].
Qed.

(** X23.  On a read-only canvas a node gets no output endpoint at all,
    whatever its outputs, its names and the helpers are, and every input
    endpoint it gets is disabled; [__addInputEndpoints] only ever appends to
    the endpoints of the instance, at most one per input. *)
Theorem read_only_node_has_no_outputs :
  forall name outputNames outputs inputs instance,
    fst (__addOutputEndpoints h nodeId true name outputNames outputs instance)
    = instance
    /\ exists added,
        fst (__addInputEndpoints h nodeId true inputs instance) = instance ++ added
        /\ Forall (fun o => enabled o = false) added
        /\ (List.length added <= List.length inputs)%nat.
Proof.
  intros name outputNames outputs inputs instance. split.
  - apply addOutputs_read_only.
  - apply (addInputs_appends true).
Qed.

Lemma addOutputs_ordinary name outputNames total row :
  ANCHOR_POSITIONS_output h total = Some row ->
  (forall o, addEndpoint h o = true) ->
  forall outputs i d seen instance,
    tracks d seen ->
    Forall ordinary seen ->
    Forall ordinary outputs ->
    exists added,
      addOutputs h nodeId false name outputNames total i outputs d instance
      = (instance ++ added, true)
      /\ map type_and_index added = numbered seen outputs
      /\ map meta added
         = map (fun k => Some {| meta_nodeName := name; meta_nodeId := nodeId;
                                 meta_index := k; meta_totalEndpoints := total |})
               (seq i (List.length outputs))
      /\ Forall (fun o => enabled o = true
                          /\ source o = true /\ target o = false
                          /\ uuid o = getOutputEndpointUUID h nodeId
                                        (snd (type_and_index o))
                          /\ connectorOverlays o
                             = match outputNames with
                               | Some names =>
                                   Some [getOutputNameOverlay h
                                           (at_index names (snd (type_and_index o)))]
                               | None => None
                               end)
                added.
Proof.
  intros Hrow Hok outputs.
  induction outputs as [| x outputs IH]; intros i d seen instance Ht Hseen Hnames.
  - exists []. rewrite app_nil_r. repeat split. constructor.
  - inversion Hnames as [| x' names' Hx Hrest]; subst.
    destruct (nextIndex_ordinary d seen x Ht Hseen Hx) as (d1 & Hnext & Ht1).
    cbn [addOutputs]. rewrite Hnext, Hrow. cbv zeta. simpl negb. cbv iota.
    rewrite Hok.
    match goal with
    | |- context [addOutputs _ _ _ _ _ _ _ _ _ (instance ++ [?e])] =>
        destruct (IH (S i) d1 (x :: seen) (instance ++ [e]) Ht1
                     (Forall_cons _ Hx Hseen) Hrest)
          as (added & Hrun & Hmap & Hmeta & Hall);
        exists (e :: added)
    end.
    split; [| split; [| split]].
    + rewrite Hrun, <- app_assoc. reflexivity.
    + simpl. rewrite Hmap. reflexivity.
    + simpl. rewrite Hmeta. reflexivity.
    + constructor; [| exact Hall]. repeat split.
Qed.

(** X24.  Output endpoints carry two numberings.  On a canvas that is not
    read-only (ordinary names, an anchor row, an instance that takes every
    endpoint) each output gets one enabled source endpoint; the index in its
    parameters and UUID counts the earlier outputs of the same name, while
    the index in its [__meta] is its position among all outputs, next to
    their total number; with output names set, the overlay is the name at
    the per-name index. *)
Theorem output_endpoints_carry_position_and_per_name_index :
  forall name outputNames outputs instance row,
    Forall ordinary outputs ->
    ANCHOR_POSITIONS_output h (List.length outputs) = Some row ->
    (forall o, addEndpoint h o = true) ->
    exists added,
      __addOutputEndpoints h nodeId false name outputNames outputs instance
      = (instance ++ added, true)
      /\ map type_and_index added = numbered [] outputs
      /\ map meta added
         = map (fun k => Some {| meta_nodeName := name; meta_nodeId := nodeId;
                                 meta_index := k;
                                 meta_totalEndpoints := List.length outputs |})
               (seq 0 (List.length outputs))
      /\ Forall (fun o => enabled o = true
                          /\ source o = true /\ target o = false
                          /\ uuid o = getOutputEndpointUUID h nodeId
                                        (snd (type_and_index o))
                          /\ connectorOverlays o
                             = match outputNames with
                               | Some names =>
                                   Some [getOutputNameOverlay h
                                           (at_index names (snd (type_and_index o)))]
                               | None => None
                               end)
                added.
Proof.
  intros name outputNames outputs instance row Hnames Hrow Hok.
  apply (addOutputs_ordinary name outputNames _ row Hrow Hok outputs 0 [] []
           instance tracks_nil (Forall_nil _) Hnames).
Qed.

End NodeBaseProperties.

Section NodeBaseSamples.
Import NodeBase.

Lemma input_endpoints_are_numbered_per_name_witness :
  exists added,
    __addInputEndpoints plain "n1" false ["main"; "main"; "aux"] []
    = ([] ++ added, true)
    /\ map type_and_index added = [("main", Num 0); ("main", Num 1); ("aux", Num 0)].
Proof.
  destruct (input_endpoints_are_numbered_per_name plain "n1" false
              ["main"; "main"; "aux"] [] [0; 1; 2; 3]%nat)
    as (added & Hrun & Hmap & _).
  - repeat constructor; discriminate.
  - reflexivity.
  - intros o. reflexivity.
  - exists added. split; [exact Hrun | exact Hmap].
Defined.

Lemma inputs_of_different_names_share_a_uuid_witness :
  exists added o1 o2,
    __addInputEndpoints plain "n1" false ["main"; "main"; "aux"] []
    = ([] ++ added, true)
    /\ In o1 added /\ In o2 added /\ o1 <> o2 /\ uuid o1 = uuid o2.
Proof.
  destruct (inputs_of_different_names_share_a_uuid plain "n1" false
              ["main"; "main"; "aux"] [] [0; 1; 2; 3]%nat "main" "aux")
    as (added & o1 & o2 & Hrun & H1 & H2 & _ & _ & Hne & Hu).
  - repeat constructor; discriminate.
  - reflexivity.
  - intros o. reflexivity.
  - simpl. auto.
  - simpl. auto.
  - discriminate.
  - exists added, o1, o2. repeat split; assumption.
Defined.

Lemma input_named_hasOwnProperty_stops_the_loop_witness :
  exists added,
    __addInputEndpoints plain "n1" false ["main"; "hasOwnProperty"; "main"; "main"] []
    = ([] ++ added, false)
    /\ map type_and_index added = [("main", Num 0); ("hasOwnProperty", Num 0)].
Proof.
  destruct (input_named_hasOwnProperty_stops_the_loop plain "n1" false
              ["main"] "main" ["main"] [] [0; 1; 2; 3]%nat)
    as (added & Hrun & Hmap).
  - repeat constructor; discriminate.
  - reflexivity.
  - intros o. reflexivity.
  - exists added. split; [exact Hrun | exact Hmap].
Defined.

Lemma output_endpoints_carry_position_and_per_name_index_witness :
  exists added,
    __addOutputEndpoints plain "n1" false "If" (Some ["true"; "false"])
                         ["main"; "main"] []
    = ([] ++ added, true)
    /\ map type_and_index added = [("main", Num 0); ("main", Num 1)]
    /\ map (fun o => option_map meta_index (meta o)) added = [Some 0; Some 1]%nat.
Proof.
  destruct (output_endpoints_carry_position_and_per_name_index plain "n1" "If"
              (Some ["true"; "false"]) ["main"; "main"] [] [0; 1; 2; 3]%nat)
    as (added & Hrun & Hmap & Hmeta & _).
  - repeat constructor; discriminate.
  - reflexivity.
  - intros o. reflexivity.
  - exists added. split; [exact Hrun |]. split; [exact Hmap |].
    rewrite <- (map_map meta (option_map meta_index)), Hmeta. reflexivity.
Defined.

End NodeBaseSamples.
